(** * RSVP backend: address geocoder, RSVP notifier and the modify-RSVP route

    A shallow embedding of
      - services/geocoding_service.py  (module [GeocodingService]),
      - services/email_service.py      (module [EmailService]),
      - routes/attendees.py, modify_rsvp (module [Attendees]),
    over a small model of the Python values these functions handle
    (module [Py]), followed by the properties of the specification. *)

From Stdlib Require Import ZArith NArith List Bool String Ascii Lia.
From Stdlib Require Import Floats DecimalString.
Import ListNotations.

Set Implicit Arguments.
Set Warnings "-register-all".

(* ================================================================== *)
(** * Python values, strings, exceptions *)
(* ================================================================== *)

Module Py.

(** A Python [str] is a sequence of Unicode code points. *)
Definition pystr := list N.

(** String literals of this file are UTF-8 encoded; [u] decodes one to
    its code points, so that [u "Praça"] has five elements. *)
Fixpoint utf8_decode (bs : list N) : pystr :=
  match bs with
  | [] => []
  | b0 :: t0 =>
    if (b0 <? 128)%N then b0 :: utf8_decode t0
    else if (b0 <? 224)%N then
      match t0 with
      | b1 :: t1 => ((b0 - 192) * 64 + (b1 - 128))%N :: utf8_decode t1
      | _ => [b0]
      end
    else if (b0 <? 240)%N then
      match t0 with
      | b1 :: b2 :: t2 =>
        ((b0 - 224) * 4096 + (b1 - 128) * 64 + (b2 - 128))%N :: utf8_decode t2
      | _ => [b0]
      end
    else
      match t0 with
      | b1 :: b2 :: b3 :: t3 =>
        ((b0 - 240) * 262144 + (b1 - 128) * 4096 + (b2 - 128) * 64 + (b3 - 128))%N
          :: utf8_decode t3
      | _ => [b0]
      end
  end.

Definition u (s : string) : pystr :=
  utf8_decode (map N_of_ascii (list_ascii_of_string s)).

Definition pystr_eqb (a b : pystr) : bool :=
  if list_eq_dec N.eq_dec a b then true else false.

(** [str(n)] for an [int]. *)
Definition str_of_int (z : Z) : pystr :=
  u (NilZero.string_of_int (Z.to_int z)).

(** [str.isspace] on one code point, which is also the class [\s] of a
    [re] pattern over [str]. *)
Definition isspace (c : N) : bool :=
  ((9 <=? c) && (c <=? 13) || (28 <=? c) && (c <=? 32)
   || (c =? 133) || (c =? 160) || (c =? 5760)
   || (8192 <=? c) && (c <=? 8202)
   || (c =? 8232) || (c =? 8233) || (c =? 8239) || (c =? 8287)
   || (c =? 12288))%N.

Fixpoint lstrip (s : pystr) : pystr :=
  match s with
  | c :: s' => if isspace c then lstrip s' else s
  | [] => []
  end.

(** [s.strip()] *)
Definition strip (s : pystr) : pystr := rev (lstrip (rev (lstrip s))).

(** [s.split(sep)[0]] for a one-character separator: the text before
    its first occurrence, or all of [s]. *)
Fixpoint split_head (sep : N) (s : pystr) : pystr :=
  match s with
  | [] => []
  | c :: s' => if (c =? sep)%N then [] else c :: split_head sep s'
  end.

(** Values as [json] decoding produces them, which are also the values
    a request body puts into the attributes of a model object. *)
Inductive pyval :=
| PNone
| PBool (b : bool)
| PInt (z : Z)
| PFloat (f : float)
| PStr (s : pystr)
| PList (l : list pyval)
| PDict (d : list (pystr * pyval)).

Definition pydict := list (pystr * pyval).

Fixpoint dict_get (d : pydict) (k : pystr) : option pyval :=
  match d with
  | [] => None
  | (k', v) :: d' => if pystr_eqb k' k then Some v else dict_get d' k
  end.

(** Truth value of a [float]: every float but the two zeros. *)
Definition float_truthy (f : float) : bool := negb (f =? 0)%float.

(** [bool(v)] *)
Definition truthy (v : pyval) : bool :=
  match v with
  | PNone => false
  | PBool b => b
  | PInt z => negb (z =? 0)%Z
  | PFloat f => float_truthy f
  | PStr s => match s with [] => false | _ => true end
  | PList l => match l with [] => false | _ => true end
  | PDict d => match d with [] => false | _ => true end
  end.

Definition str_truthy (s : pystr) : bool :=
  match s with [] => false | _ => true end.

(** Truth value of a variable that holds a [str] or [None], and of one
    that holds a [float] or [None]. *)
Definition opt_truthy (o : option pystr) : bool :=
  match o with Some s => str_truthy s | None => false end.

Definition opt_float_truthy (o : option float) : bool :=
  match o with Some f => float_truthy f | None => false end.

(** An f-string field holding a [str] or [None]. *)
Definition fmt (o : option pystr) : pystr :=
  match o with Some s => s | None => u "None" end.

(** [v == "literal"] *)
Definition eq_str (v : pyval) (s : pystr) : bool :=
  match v with
  | PStr s' => pystr_eqb s' s
  | _ => false
  end.

(** The exception classes that occur. [HTTPError] and [JSONDecodeError]
    are the ones of [requests]; both derive from [RequestException], and
    [JSONDecodeError] from [ValueError] as well. *)
Inductive exn :=
| RequestException | HTTPError | JSONDecodeError
| ValueError | KeyError | IndexError
| TypeError | AttributeError | OverflowError
| OtherException (name : pystr).

Definition is_RequestException (e : exn) : bool :=
  match e with
  | RequestException | HTTPError | JSONDecodeError => true
  | _ => false
  end.

Definition is_ValueError (e : exn) : bool :=
  match e with
  | ValueError | JSONDecodeError => true
  | _ => false
  end.

Definition is_KeyError (e : exn) : bool :=
  match e with
  | KeyError => true
  | _ => false
  end.

(** Every class above derives from [Exception]. *)
Definition is_Exception (e : exn) : bool := true.

Inductive res (A : Type) :=
| Ret (a : A)
| Raise (e : exn).
Arguments Ret {A} a.
Arguments Raise {A} e.

Definition rbind {A B} (r : res A) (k : A -> res B) : res B :=
  match r with
  | Ret a => k a
  | Raise e => Raise e
  end.

(** A computation that returns or raises, and records the outbound
    calls (of type [E]) it made, in order. *)
Definition M (E A : Type) : Type := res A * list E.

Definition ret {E A} (a : A) : M E A := (Ret a, []).
Definition raise {E A} (e : exn) : M E A := (Raise e, []).
Definition lift {E A} (r : res A) : M E A := (r, []).

Definition bind {E A B} (m : M E A) (k : A -> M E B) : M E B :=
  match m with
  | (Ret a, tr) => let (r, tr') := k a in (r, tr ++ tr')
  | (Raise e, tr) => (Raise e, tr)
  end.

(** [try: body except <classes>: handler ...]: the first clause whose
    classes contain the exception handles it; with none, it propagates. *)
Fixpoint find_handler {E A} (clauses : list ((exn -> bool) * M E A))
         (e : exn) : option (M E A) :=
  match clauses with
  | [] => None
  | (classes, handler) :: rest =>
    if classes e then Some handler else find_handler rest e
  end.

Definition try_except {E A} (body : M E A)
           (clauses : list ((exn -> bool) * M E A)) : M E A :=
  match body with
  | (Raise e, tr) =>
    match find_handler clauses e with
    | Some handler => let (r, tr') := handler in (r, tr ++ tr')
    | None => (Raise e, tr)
    end
  | done => done
  end.

Definition result {E A} (m : M E A) : res A := fst m.
Definition calls {E A} (m : M E A) : list E := snd m.

(** What the interpreter provides and the repository does not define. *)
Record Runtime := {
  (** [float(s)] for a [str]; [None] when it raises [ValueError] *)
  float_of_str : pystr -> option float;
  (** code points above ASCII of Unicode category Nd *)
  unicode_Nd : N -> bool;
  (** [repr] of a float, a list or a dict *)
  repr : pyval -> pystr
}.

(** The class [\d] of a [re] pattern over [str]. *)
Definition isdecimal (rt : Runtime) (c : N) : bool :=
  if (c <? 128)%N then ((48 <=? c) && (c <=? 57))%N else unicode_Nd rt c.

(** [float(n)] for an [int]: the nearest double, ties to even;
    [OverflowError] beyond the largest one. *)
Definition float_of_int (z : Z) : res float :=
  match binary_normalize prec emax z 0 false with
  | S754_infinity _ => Raise OverflowError
  | sf => Ret (SF2Prim sf)
  end.

(** [float(v)] *)
Definition py_float (rt : Runtime) (v : pyval) : res float :=
  match v with
  | PNone => Raise TypeError
  | PBool b => Ret (if b then 1 else 0)%float
  | PInt z => float_of_int z
  | PFloat f => Ret f
  | PStr s =>
    match float_of_str rt s with
    | Some f => Ret f
    | None => Raise ValueError
    end
  | PList _ | PDict _ => Raise TypeError
  end.

(** [str(v)], as an f-string field formats it. *)
Definition py_str (rt : Runtime) (v : pyval) : pystr :=
  match v with
  | PNone => u "None"
  | PBool b => if b then u "True" else u "False"
  | PInt z => str_of_int z
  | PStr s => s
  | other => repr rt other
  end.

(** [v.get(k)] and [v.get(k, default)]: only a dict has the method. *)
Definition get (v : pyval) (k : pystr) (default : pyval) : res pyval :=
  match v with
  | PDict d =>
    Ret (match dict_get d k with Some x => x | None => default end)
  | _ => Raise AttributeError
  end.

(** [v[k]] for a [str] key. *)
Definition getitem (v : pyval) (k : pystr) : res pyval :=
  match v with
  | PDict d =>
    match dict_get d k with
    | Some x => Ret x
    | None => Raise KeyError
    end
  | _ => Raise TypeError
  end.

(** [k in v] for a [str] key and a dict, a list or a str of JSON. *)
Definition contains (v : pyval) (k : pystr) : res bool :=
  match v with
  | PDict d => Ret (match dict_get d k with Some _ => true | None => false end)
  | PList l => Ret (existsb (fun x => eq_str x k) l)
  | PStr s => Ret (existsb (fun t => pystr_eqb (firstn (List.length k) t) k)
                           (map (fun n => skipn n s) (seq 0 (S (List.length s)))))
  | _ => Raise TypeError
  end.

(** [v[0]]. The keys of a decoded JSON object are strings, so a dict
    never has the key [0]. *)
Definition getitem0 (v : pyval) : res pyval :=
  match v with
  | PList l =>
    match l with
    | x :: _ => Ret x
    | [] => Raise IndexError
    end
  | PStr s =>
    match s with
    | c :: _ => Ret (PStr [c])
    | [] => Raise IndexError
    end
  | PDict _ => Raise KeyError
  | _ => Raise TypeError
  end.

(** [len(v)] *)
Definition len (v : pyval) : res Z :=
  match v with
  | PStr s => Ret (Z.of_nat (List.length s))
  | PList l => Ret (Z.of_nat (List.length l))
  | PDict d => Ret (Z.of_nat (List.length d))
  | _ => Raise TypeError
  end.

End Py.

Declare Scope py_scope.
Delimit Scope py_scope with py.
Notation "x <- m ;; k" := (Py.bind m (fun x => k))
  (at level 61, m at next level, right associativity) : py_scope.
Notation "' p <- m ;; k" := (Py.bind m (fun x => match x with p => k end))
  (at level 61, p pattern, m at next level, right associativity) : py_scope.
Notation "x <~ r ;; k" := (Py.rbind r (fun x => k))
  (at level 61, r at next level, right associativity) : py_scope.
Notation "m ;;; k" := (Py.bind m (fun _ => k))
  (at level 61, right associativity) : py_scope.

Import Py.
Local Open Scope py_scope.

(* ================================================================== *)
(** * The part of [re] the geocoder uses *)
(* ================================================================== *)

Module Re.

(** Patterns: every repetition in the source is over a character
    class, and greedy. *)
Inductive regex :=
| Eps
| Chr (p : N -> bool)
| Star (p : N -> bool)
| Seq (r1 r2 : regex)
| Alt (r1 r2 : regex)
| Group (i : nat) (r : regex).

Definition Plus (p : N -> bool) : regex := Seq (Chr p) (Star p).

Definition groups := list (nat * pystr).

(** Backtracking in the order of [re]: a repetition takes as many
    characters as it can and gives them back one at a time, the left
    alternative goes first. [k] is what remains of the pattern. *)
Fixpoint star (p : N -> bool) (s : pystr)
         (k : pystr -> option groups) : option groups :=
  match s with
  | c :: s' =>
    if p c then
      match star p s' k with
      | Some g => Some g
      | None => k s
      end
    else k s
  | [] => k s
  end.

Fixpoint run (r : regex) (s : pystr) (g : groups)
         (k : pystr -> groups -> option groups) : option groups :=
  match r with
  | Eps => k s g
  | Chr p =>
    match s with
    | c :: s' => if p c then k s' g else None
    | [] => None
    end
  | Star p => star p s (fun s' => k s' g)
  | Seq r1 r2 => run r1 s g (fun s1 g1 => run r2 s1 g1 k)
  | Alt r1 r2 =>
    match run r1 s g k with
    | Some g' => Some g'
    | None => run r2 s g k
    end
  | Group i r =>
    run r s g
        (fun s' g' => k s' ((i, firstn (List.length s - List.length s') s) :: g'))
  end.

(** [re.match(r, s)] *)
Definition match_ (r : regex) (s : pystr) : option groups :=
  run r s [] (fun _ g => Some g).

(** [re.search(r, s)]: the match at the leftmost position that has one. *)
Fixpoint search (r : regex) (s : pystr) : option groups :=
  match match_ r s with
  | Some g => Some g
  | None =>
    match s with
    | [] => None
    | _ :: s' => search r s'
    end
  end.

(** [m.group(i)] *)
Fixpoint group (m : groups) (i : nat) : pystr :=
  match m with
  | [] => []
  | (j, s) :: m' => if Nat.eqb j i then s else group m' i
  end.

(** The code points that a letter of a pattern matches under
    [re.IGNORECASE]: those whose lower case is the letter's, and for
    [i], [s] and [k] the extra ones of [re]'s case table. Covers the
    ASCII letters and [ç]; any other character matches itself. *)
Definition ignorecase (c : N) (x : N) : bool :=
  let lo := if ((65 <=? c) && (c <=? 90) || (c =? 199))%N then (c + 32)%N else c in
  ((x =? lo)
   || ((97 <=? lo) && (lo <=? 122) || (lo =? 231)) && (x =? lo - 32)
   || (lo =? 105) && ((x =? 304) || (x =? 305))
   || (lo =? 115) && (x =? 383)
   || (lo =? 107) && (x =? 8490))%N.

Fixpoint lit (s : pystr) : regex :=
  match s with
  | [] => Eps
  | c :: s' => Seq (Chr (N.eqb c)) (lit s')
  end.

Fixpoint lit_i (s : pystr) : regex :=
  match s with
  | [] => Eps
  | c :: s' => Seq (Chr (ignorecase c)) (lit_i s')
  end.

Fixpoint alts (rs : list regex) : regex :=
  match rs with
  | [] => Chr (fun _ => false)
  | [r] => r
  | r :: rs' => Alt r (alts rs')
  end.

Definition comma : N := 44.
Definition not_comma (c : N) : bool := negb (c =? comma)%N.
Definition upper_AZ (c : N) : bool := ((65 <=? c) && (c <=? 90))%N.

End Re.

(* ================================================================== *)
(** * services/geocoding_service.py *)
(* ================================================================== *)

Module GeocodingService.

(** An outbound [requests.get(url, params=..., headers=..., timeout=...)]. *)
Record request := {
  url : pystr;
  params : list (pystr * pyval);
  headers : list (pystr * pystr);
  timeout : Z
}.

(** What the functions look at in the response object:
    [raise_for_status()] passes or raises [HTTPError]; [json()] returns
    the decoded body or raises: [JSONDecodeError] for a body that is
    not JSON, and whatever else the decoder raises (a [RecursionError]
    on a body nested too deep), which [requests] lets through. *)
Record response := {
  status_ok : bool;
  body : res pyval
}.

(** Everything outside the process: the interpreter, the environment
    variables, and the network ([None]: [requests.get] itself raises a
    [RequestException], such as a timeout or a refused connection). *)
Record World := {
  runtime : Runtime;
  getenv : pystr -> option pystr;
  network : request -> option response
}.

Definition google_url : pystr :=
  u "https://maps.googleapis.com/maps/api/geocode/json".
Definition nominatim_url : pystr :=
  u "https://nominatim.openstreetmap.org/search".

Definition coords : Type := option float * option float.

(** [lat and lon and -90 <= lat <= 90 and -180 <= lon <= 180],
    the test of lines 61 and 144. *)
Definition in_range (lat lon : float) : bool :=
  ((-90 <=? lat) && (lat <=? 90) && (-180 <=? lon) && (lon <=? 180))%float.

Definition accepted (lat lon : float) : bool :=
  float_truthy lat && float_truthy lon && in_range lat lon.

(** The three patterns of [_geocode_with_nominatim]. *)
Definition street_re : Re.regex :=
  Re.Seq (Re.alts [Re.lit_i (u "Rua"); Re.lit_i (u "Av."); Re.lit_i (u "Avenida");
                   Re.lit_i (u "Travessa"); Re.lit_i (u "Alameda");
                   Re.lit_i (u "Praça")])
  (Re.Seq (Re.Plus isspace)
          (Re.Group 1 (Re.Plus Re.not_comma))).

Definition number_re (rt : Runtime) : Re.regex :=
  Re.Seq (Re.lit (u ","))
  (Re.Seq (Re.Star isspace)
          (Re.Group 1 (Re.Plus (isdecimal rt)))).

Definition city_state_re : Re.regex :=
  Re.Seq (Re.lit (u ","))
  (Re.Seq (Re.Star isspace)
  (Re.Seq (Re.Group 1 (Re.Plus Re.not_comma))
  (Re.Seq (Re.Star isspace)
  (Re.Seq (Re.lit (u "-"))
  (Re.Seq (Re.Star isspace)
          (Re.Group 2 (Re.Seq (Re.Chr Re.upper_AZ) (Re.Chr Re.upper_AZ)))))))).

Section WithWorld.

Variable w : World.

Definition requests_get (r : request) : M request response :=
  (match network w r with
   | Some resp => Ret resp
   | None => Raise RequestException
   end, [r]).

Definition raise_for_status (resp : response) : M request unit :=
  if status_ok resp then ret tt else raise HTTPError.

Definition json (resp : response) : M request pyval :=
  lift (body resp).

(** Lines 85-93: the street name. *)
Definition extract_street (address_full : pystr) : pystr :=
  match Re.match_ street_re address_full with
  | Some street_match => strip (Re.group street_match 1)
  | None => strip (split_head Re.comma address_full)
  end.

(** Lines 95-96: the house number. *)
Definition extract_number (address_full : pystr) : option pystr :=
  match Re.search (number_re (runtime w)) address_full with
  | Some number_match => Some (Re.group number_match 1)
  | None => None
  end.

(** Lines 98-104: city and state. *)
Definition extract_city_state (address_full : pystr)
  : option pystr * option pystr :=
  match Re.search city_state_re address_full with
  | Some city_state_match =>
    (Some (strip (Re.group city_state_match 1)),
     Some (strip (Re.group city_state_match 2)))
  | None => (None, None)
  end.

(** Lines 85-120 of [_geocode_with_nominatim]: the simplified address,
    or [None] where the function returns early. *)
Definition simplify_address (address_full : pystr) : option pystr :=
  let street_name := extract_street address_full in
  let number := extract_number address_full in
  let '(city, state) := extract_city_state address_full in
  if negb (str_truthy street_name && opt_truthy city) then None
  else
    Some
      (if opt_truthy number then
         if opt_truthy state then
           street_name ++ u ", " ++ fmt number ++ u ", " ++ fmt city
                       ++ u ", " ++ fmt state ++ u ", Brasil"
         else
           street_name ++ u ", " ++ fmt number ++ u ", " ++ fmt city
                       ++ u ", Brasil"
       else
         if opt_truthy state then
           street_name ++ u ", " ++ fmt city ++ u ", " ++ fmt state
                       ++ u ", Brasil"
         else
           street_name ++ u ", " ++ fmt city ++ u ", Brasil").

Definition google_request (address_full api_key : pystr) : request :=
  {| url := google_url;
     params := [(u "address", PStr address_full);
                (u "region", PStr (u "br"));
                (u "key", PStr api_key)];
     headers := [];
     timeout := 5 |}.

Definition nominatim_request (simplified_address : pystr) : request :=
  {| url := nominatim_url;
     params := [(u "q", PStr simplified_address);
                (u "format", PStr (u "json"));
                (u "limit", PInt 1);
                (u "addressdetails", PInt 1)];
     headers := [(u "User-Agent", u "VenhaApp/1.0")];
     timeout := 3 |}.

(** Lines 67-69. *)
Definition google_not_found (data : pyval) : M request coords :=
  _ <- lift (get data (u "status") (PStr (u "UNKNOWN"))) ;;
  ret (None, None).

Definition _geocode_with_google (address_full : pystr) : M request coords :=
  let api_key := getenv w (u "GOOGLE_GEOCODING_API_KEY") in
  match api_key with
  | None => ret (None, None)
  | Some key =>
    if negb (str_truthy key) || pystr_eqb key (u "SUA_CHAVE_AQUI")
    then ret (None, None)
    else
      try_except
        (response <- requests_get (google_request address_full key) ;;
         raise_for_status response ;;;
         data <- json response ;;
         status <- lift (get data (u "status") PNone) ;;
         found <- (if eq_str status (u "OK")
                   then results <- lift (get data (u "results") PNone) ;;
                        ret (truthy results)
                   else ret false) ;;
         if found : bool then
           results <- lift (getitem data (u "results")) ;;
           result <- lift (getitem0 results) ;;
           geometry <- lift (getitem result (u "geometry")) ;;
           location <- lift (getitem geometry (u "location")) ;;
           vlat <- lift (getitem location (u "lat")) ;;
           lat <- lift (py_float (runtime w) vlat) ;;
           vlng <- lift (getitem location (u "lng")) ;;
           lon <- lift (py_float (runtime w) vlng) ;;
           if accepted lat lon then
             _ <- lift (get result (u "formatted_address") (PStr [])) ;;
             ret (Some lat, Some lon)
           else google_not_found data
         else google_not_found data)
        [(is_RequestException, ret (None, None));
         (fun e => is_ValueError e || is_KeyError e, ret (None, None))]
  end.

Definition _geocode_with_nominatim (address_full : pystr) : M request coords :=
  try_except
    (match simplify_address address_full with
     | None => ret (None, None)
     | Some simplified_address =>
       response <- requests_get (nominatim_request simplified_address) ;;
       raise_for_status response ;;;
       data <- json response ;;
       nonempty <- (if truthy data
                    then n <- lift (len data) ;; ret (0 <? n)%Z
                    else ret false) ;;
       if nonempty : bool then
         result <- lift (getitem0 data) ;;
         vlat <- lift (get result (u "lat") PNone) ;;
         lat <- lift (py_float (runtime w) vlat) ;;
         vlon <- lift (get result (u "lon") PNone) ;;
         lon <- lift (py_float (runtime w) vlon) ;;
         if accepted lat lon then ret (Some lat, Some lon)
         else ret (None, None)
       else ret (None, None)
     end)
    [(fun e => is_RequestException e || is_ValueError e || is_KeyError e,
      ret (None, None))].

(** [address_full] is a [str] or [None]. *)
Definition geocode_address (address_full : option pystr) : M request coords :=
  match address_full with
  | None => ret (None, None)
  | Some address =>
    if negb (str_truthy address) then ret (None, None)
    else
      '(lat, lon) <- _geocode_with_google address ;;
      if opt_float_truthy lat && opt_float_truthy lon then ret (lat, lon)
      else _geocode_with_nominatim address
  end.

End WithWorld.

End GeocodingService.

(* ================================================================== *)
(** * The model objects *)
(* ================================================================== *)

Module Models.

(** Modelled from the spec: models.py is not among the sources. The
    records hold the attributes the services and the route read and
    write. The keys of the queries ([slug], [whatsapp_number]) and the
    e-mail address of a host are the strings the database holds; an
    attribute a request body is assigned to holds whatever value the
    body had. *)
Record Host := {
  email : pystr
}.

Record Event := {
  Event_id : Z;
  slug : pystr;
  title : pyval;
  host : Host;
  allow_modifications : bool;
  allow_cancellations : bool
}.

Record Attendee := {
  id : Z;
  event_id : Z;
  whatsapp_number : pystr;
  name : pyval;
  num_adults : pyval;
  num_children : pyval;
  comments : pyval;
  status : pyval
}.

Definition set_name (a : Attendee) (v : pyval) : Attendee :=
  {| id := id a; event_id := event_id a; whatsapp_number := whatsapp_number a;
     name := v; num_adults := num_adults a; num_children := num_children a;
     comments := comments a; status := status a |}.

Definition set_num_adults (a : Attendee) (v : pyval) : Attendee :=
  {| id := id a; event_id := event_id a; whatsapp_number := whatsapp_number a;
     name := name a; num_adults := v; num_children := num_children a;
     comments := comments a; status := status a |}.

Definition set_num_children (a : Attendee) (v : pyval) : Attendee :=
  {| id := id a; event_id := event_id a; whatsapp_number := whatsapp_number a;
     name := name a; num_adults := num_adults a; num_children := v;
     comments := comments a; status := status a |}.

Definition set_comments (a : Attendee) (v : pyval) : Attendee :=
  {| id := id a; event_id := event_id a; whatsapp_number := whatsapp_number a;
     name := name a; num_adults := num_adults a; num_children := num_children a;
     comments := v; status := status a |}.

Definition set_status (a : Attendee) (v : pyval) : Attendee :=
  {| id := id a; event_id := event_id a; whatsapp_number := whatsapp_number a;
     name := name a; num_adults := num_adults a; num_children := num_children a;
     comments := comments a; status := v |}.

End Models.

(* ================================================================== *)
(** * services/email_service.py *)
(* ================================================================== *)

Module EmailService.

Import Models.

(** [Mail(from_email=..., to_emails=..., subject=..., html_content=...)].
    The constructor runs before the [try] of each notifier. Its four
    arguments are strings here (a literal, the address the database
    holds for the host, and two f-strings), and from strings it builds
    the message: it refuses a recipient only when that is neither a
    string, a tuple, a list nor [None]. *)
Record Mail := {
  from_email : pystr;
  to_emails : pystr;
  subject : pystr;
  html_content : pystr
}.

(** [sendgrid]: what [SendGridAPIClient(key).send(message)] does, the
    status code of the response or the exception it raises. *)
Record World := {
  runtime : Runtime;
  getenv : pystr -> option pystr;
  sendgrid : option pystr -> Mail -> res Z
}.

Definition nl : pystr := [10%N].

Section WithWorld.

Variable w : World.

(** An f-string field. *)
Definition str (v : pyval) : pystr := py_str (runtime w) v.

Definition sg_send (api_key : option pystr) (message : Mail) : M Mail Z :=
  (sendgrid w api_key message, [message]).

(** Line 25: the list item of the comments. *)
Definition comments_item (attendee : Attendee) : pystr :=
  if truthy (comments attendee)
  then u "<li>Comentários: " ++ str (comments attendee) ++ u "</li>"
  else [].

Definition rsvp_message (event : Event) (attendee : Attendee) : Mail :=
  let sender_email := u "ferfrancodias@gmail.com" in
  {| from_email := sender_email;
     to_emails := email (host event);
     subject := u "Novo RSVP para " ++ str (title event);
     html_content :=
       nl ++
       u "            <h2>Nova Confirmação de Presença!</h2>" ++ nl ++
       u "            <p><strong>" ++ str (name attendee) ++
       u "</strong> confirmou presença no seu evento: <strong>" ++
       str (title event) ++ u "</strong></p>" ++ nl ++
       u "            " ++ nl ++
       u "            <h3>Detalhes:</h3>" ++ nl ++
       u "            <ul>" ++ nl ++
       u "                <li>Adultos: " ++ str (num_adults attendee) ++
       u "</li>" ++ nl ++
       u "                <li>Crianças: " ++ str (num_children attendee) ++
       u "</li>" ++ nl ++
       u "                <li>WhatsApp: " ++ whatsapp_number attendee ++
       u "</li>" ++ nl ++
       u "                " ++ comments_item attendee ++ nl ++
       u "            </ul>" ++ nl ++
       u "            " ++ nl ++
       u "            <p>Veja todos os convidados no seu painel.</p>" ++ nl ++
       u "        " |}.

Definition send_rsvp_notification (event : Event) (attendee : Attendee)
  : M Mail bool :=
  let message := rsvp_message event attendee in
  try_except
    (_ <- sg_send (getenv w (u "SENDGRID_API_KEY")) message ;;
     ret true)
    [(is_Exception, ret false)].

Definition modification_message (event : Event) (attendee : Attendee) : Mail :=
  let sender_email := u "ferfrancodias@gmail.com" in
  {| from_email := sender_email;
     to_emails := email (host event);
     subject := u "RSVP Modificado - " ++ str (title event);
     html_content :=
       nl ++
       u "            <h2>RSVP Modificado</h2>" ++ nl ++
       u "            <p><strong>" ++ str (name attendee) ++
       u "</strong> modificou a confirmação para: <strong>" ++
       str (title event) ++ u "</strong></p>" ++ nl ++
       u "            " ++ nl ++
       u "            <h3>Detalhes Atualizados:</h3>" ++ nl ++
       u "            <ul>" ++ nl ++
       u "                <li>Adultos: " ++ str (num_adults attendee) ++
       u "</li>" ++ nl ++
       u "                <li>Crianças: " ++ str (num_children attendee) ++
       u "</li>" ++ nl ++
       u "                <li>Comentários: " ++ str (comments attendee) ++
       u "</li>" ++ nl ++
       u "            </ul>" ++ nl ++
       u "        " |}.

(** [changes] is accepted and not used. *)
Definition send_modification_notification (event : Event)
           (attendee : Attendee) (changes : pyval) : M Mail bool :=
  let message := modification_message event attendee in
  try_except
    (_ <- sg_send (getenv w (u "SENDGRID_API_KEY")) message ;;
     ret true)
    [(is_Exception, ret false)].

Definition cancellation_message (event : Event) (attendee : Attendee)
           (reason : pyval) : Mail :=
  let sender_email := u "ferfrancodias@gmail.com" in
  {| from_email := sender_email;
     to_emails := email (host event);
     subject := u "RSVP Cancelado - " ++ str (title event);
     html_content :=
       nl ++
       u "            <h2>RSVP Cancelado</h2>" ++ nl ++
       u "            <p><strong>" ++ str (name attendee) ++
       u "</strong> cancelou a presença em: <strong>" ++
       str (title event) ++ u "</strong></p>" ++ nl ++
       u "            " ++ nl ++
       u "            " ++
       (if truthy reason
        then u "<p><strong>Motivo:</strong> " ++ str reason ++ u "</p>"
        else []) ++ nl ++
       u "        " |}.

(** [reason] defaults to the empty string. *)
Definition send_cancellation_notification (event : Event)
           (attendee : Attendee) (reason : pyval) : M Mail bool :=
  let message := cancellation_message event attendee reason in
  try_except
    (_ <- sg_send (getenv w (u "SENDGRID_API_KEY")) message ;;
     ret true)
    [(is_Exception, ret false)].

End WithWorld.

End EmailService.

(* ================================================================== *)
(** * routes/attendees.py: modify_rsvp *)
(* ================================================================== *)

Module Attendees.

Import Models.

(** The tables as the session sees them. *)
Record Database := {
  events : list Event;
  attendees : list Attendee
}.

(** [Event.query.filter_by(slug=v).first()]. The column is compared
    with a string: a value of the body that is not a string finds no
    row here. What the database does with a value it cannot bind or
    compares in its own way is left out, so the statements about the
    handlers speak of the requests that the handlers answer. *)
Definition first_event (db : Database) (v : pyval) : option Event :=
  find (fun e => eq_str v (slug e)) (events db).

Definition is_rsvp (event : Event) (v : pyval) (a : Attendee) : bool :=
  (event_id a =? Event_id event)%Z && eq_str v (whatsapp_number a).

(** [Attendee.query.filter_by(event_id=event.id, whatsapp_number=v).first()],
    with the same reading of [v] as in [first_event]. *)
Definition first_attendee (db : Database) (event : Event) (v : pyval)
  : option Attendee :=
  find (is_rsvp event v) (attendees db).

(** The object the query returned is the row: writing its attributes
    and committing replaces the first row the query matches. *)
Fixpoint replace_first (p : Attendee -> bool) (a' : Attendee)
         (l : list Attendee) : list Attendee :=
  match l with
  | [] => []
  | a :: l' => if p a then a' :: l' else a :: replace_first p a' l'
  end.

Definition commit (db : Database) (event : Event) (v : pyval)
           (attendee : Attendee) : Database :=
  {| events := events db;
     attendees := replace_first (is_rsvp event v) attendee (attendees db) |}.

(** [jsonify({"error": msg}), code] *)
Definition error (msg : string) (code : Z) : pyval * Z :=
  (PDict [(u "error", PStr (u msg))], code).

(** [if key in data: attendee.<field> = data[key]]. The attribute holds
    the value of the body; what the column makes of that value at the
    commit is left out. *)
Definition update_field (data : pyval) (key : string)
           (set : Attendee -> pyval -> Attendee) (attendee : Attendee)
  : res Attendee :=
  present <~ contains data (u key) ;;
  if present : bool then
    v <~ getitem data (u key) ;;
    Ret (set attendee v)
  else Ret attendee.

(** The handler of PUT /api/attendees/modify on the body [data]:
    the database after the request, and the response with its status
    code. An exception leaves the handler before the commit. *)
Definition modify_rsvp (db : Database) (data : pyval)
  : res (Database * (pyval * Z)) :=
  event_slug <~ get data (u "event_slug") PNone ;;
  whatsapp_number <~ get data (u "whatsapp_number") PNone ;;
  if negb (truthy event_slug) || negb (truthy whatsapp_number) then
    Ret (db, error "Event slug and WhatsApp number are required" 400)
  else
    match first_event db event_slug with
    | None => Ret (db, error "Event not found" 404)
    | Some event =>
      if negb (allow_modifications event) then
        Ret (db, error "Modifications are not allowed for this event" 403)
      else
        match first_attendee db event whatsapp_number with
        | None => Ret (db, error "RSVP not found" 404)
        | Some attendee =>
          attendee <~ update_field data "name" set_name attendee ;;
          attendee <~ update_field data "num_adults" set_num_adults attendee ;;
          attendee <~ update_field data "num_children" set_num_children attendee ;;
          attendee <~ update_field data "comments" set_comments attendee ;;
          let attendee :=
            if eq_str (status attendee) (u "cancelled")
            then set_status attendee (PStr (u "confirmed"))
            else attendee in
          Ret (commit db event whatsapp_number attendee,
               (PDict
                  [(u "message", PStr (u "RSVP updated successfully"));
                   (u "attendee",
                    PDict [(u "id", PInt (id attendee));
                           (u "name", name attendee);
                           (u "num_adults", num_adults attendee);
                           (u "num_children", num_children attendee);
                           (u "comments", comments attendee);
                           (u "status", status attendee)])],
                200%Z))
        end
    end.

End Attendees.

(* ================================================================== *)
(** * routes/attendees.py: create_rsvp, find_attendee and cancel_rsvp *)
(* ================================================================== *)

Module AttendeeRoutes.

Import Models Attendees.

(** What the persistence layer decides, and the sources do not show:
    the string that the [whatsapp_number] column holds once a value
    assigned to it is committed (or the exception of the commit that
    refuses it), the primary key of a new row, and the status the
    model gives to a new attendee. *)
Record Persistence := {
  text_column : pyval -> res pystr;
  new_id : Database -> Z;
  default_status : pyval
}.

(** [all(field in data for field in fields)] *)
Fixpoint all_in (data : pyval) (fields : list string) : res bool :=
  match fields with
  | [] => Ret true
  | field :: rest =>
    present <~ contains data (u field) ;;
    if present : bool then all_in data rest else Ret false
  end.

Definition required : list string :=
  ["event_slug"; "whatsapp_number"; "name"; "num_adults"]%string.

(** [db.session.add(attendee)] followed by the commit. *)
Definition add (db : Database) (attendee : Attendee) : Database :=
  {| events := events db;
     attendees := attendees db ++ [attendee] |}.

Section WithWorld.

Variable w : EmailService.World.
Variable p : Persistence.

(** Lines 33-43: the new row, once committed. The number is what the
    column stores; the other four fields hold the values of the body,
    and what their columns make of them is left out. *)
Definition new_attendee (db : Database) (event : Event) (data : pyval)
  : res Attendee :=
  number <~ getitem data (u "whatsapp_number") ;;
  name_v <~ getitem data (u "name") ;;
  adults <~ getitem data (u "num_adults") ;;
  children <~ get data (u "num_children") (PInt 0) ;;
  comments_v <~ get data (u "comments") (PStr []) ;;
  stored <~ text_column p number ;;
  Ret {| id := new_id p db;
         event_id := Event_id event;
         whatsapp_number := stored;
         name := name_v;
         num_adults := adults;
         num_children := children;
         comments := comments_v;
         status := default_status p |}.

(** The handler of POST /api/attendees/rsvp on the body [data]: the
    database after the request and the response with its status code,
    with the messages sent to the mail provider on the way. *)
Definition create_rsvp (db : Database) (data : pyval)
  : M EmailService.Mail (Database * (pyval * Z)) :=
  complete <- lift (all_in data required) ;;
  if negb complete then ret (db, error "Missing required fields" 400)
  else
    event_slug <- lift (getitem data (u "event_slug")) ;;
    match first_event db event_slug with
    | None => ret (db, error "Event not found" 404)
    | Some event =>
      number <- lift (getitem data (u "whatsapp_number")) ;;
      match first_attendee db event number with
      | Some existing =>
        ret (db, error "You have already RSVP'd to this event" 400)
      | None =>
        attendee <- lift (new_attendee db event data) ;;
        _ <- EmailService.send_rsvp_notification w event attendee ;;
        ret (add db attendee,
             (PDict [(u "message", PStr (u "RSVP successful"));
                     (u "attendee_id", PInt (id attendee))],
              201%Z))
      end
    end.

End WithWorld.

(** The handler of POST /api/attendees/cancel. *)
Definition cancel_rsvp (db : Database) (data : pyval)
  : res (Database * (pyval * Z)) :=
  event_slug <~ get data (u "event_slug") PNone ;;
  whatsapp_number <~ get data (u "whatsapp_number") PNone ;;
  if negb (truthy event_slug) || negb (truthy whatsapp_number) then
    Ret (db, error "Event slug and WhatsApp number are required" 400)
  else
    match first_event db event_slug with
    | None => Ret (db, error "Event not found" 404)
    | Some event =>
      if negb (allow_cancellations event) then
        Ret (db, error "Cancellations are not allowed for this event" 403)
      else
        match first_attendee db event whatsapp_number with
        | None => Ret (db, error "RSVP not found" 404)
        | Some attendee =>
          let attendee := set_status attendee (PStr (u "cancelled")) in
          Ret (commit db event whatsapp_number attendee,
               (PDict [(u "message", PStr (u "RSVP cancelled successfully"))],
                200%Z))
        end
    end.

(** What the sources do not show of the two date columns: the text
    that [isoformat()] gives for the value a row holds, or the
    exception of the call when the column holds none. *)
Record Dates := {
  created_at_isoformat : Attendee -> res pystr;
  event_date_isoformat : Event -> res pystr
}.

(** The handler of POST /api/attendees/find: it reads and writes
    nothing. *)
Definition find_attendee (dates : Dates) (db : Database) (data : pyval)
  : res (pyval * Z) :=
  event_slug <~ get data (u "event_slug") PNone ;;
  number <~ get data (u "whatsapp_number") PNone ;;
  if negb (truthy event_slug) || negb (truthy number) then
    Ret (error "Event slug and WhatsApp number are required" 400)
  else
    match first_event db event_slug with
    | None => Ret (error "Event not found" 404)
    | Some event =>
      match first_attendee db event number with
      | None => Ret (error "RSVP not found for this WhatsApp number" 404)
      | Some attendee =>
        created_at <~ created_at_isoformat dates attendee ;;
        event_date <~ event_date_isoformat dates event ;;
        Ret (PDict
               [(u "attendee",
                 PDict [(u "id", PInt (id attendee));
                        (u "name", name attendee);
                        (u "whatsapp_number",
                         PStr (whatsapp_number attendee));
                        (u "num_adults", num_adults attendee);
                        (u "num_children", num_children attendee);
                        (u "comments", comments attendee);
                        (u "status", status attendee);
                        (u "created_at", PStr created_at)]);
                (u "event",
                 PDict [(u "title", title event);
                        (u "event_date", PStr event_date);
                        (u "allow_modifications",
                         PBool (allow_modifications event));
                        (u "allow_cancellations",
                         PBool (allow_cancellations event))])],
             200%Z)
      end
    end.

End AttendeeRoutes.

(* ================================================================== *)
(** * app.py: the RSVP resource *)
(* ================================================================== *)

Module App.

Import Models Attendees AttendeeRoutes.


Section WithWorld.

Variable w : EmailService.World.
Variable p : Persistence.


End WithWorld.

End App.

(* ================================================================== *)
(** * Concrete worlds for the examples *)
(* ================================================================== *)

Module Examples.

Import GeocodingService.

Fixpoint take_digits (s : pystr) (acc : Z) (n : nat) : Z * nat * pystr :=
  match s with
  | c :: s' =>
    if ((48 <=? c) && (c <=? 57))%N
    then take_digits s' (acc * 10 + Z.of_N (c - 48)) (S n)
    else (acc, n, s)
  | [] => (acc, n, [])
  end.

(** [float(s)] on plain ASCII decimals, [-22.9068] or [200], correctly
    rounded; the other spellings [float] accepts (exponents, [inf],
    [nan], underscores, other digits) are left out. *)
Definition decimal_of_str (s : pystr) : option float :=
  let s0 := strip s in
  let '(neg, s1) :=
    match s0 with
    | 43%N :: t => (false, t)
    | 45%N :: t => (true, t)
    | _ => (false, s0)
    end in
  let '(ip, ni, s2) := take_digits s1 0 0 in
  let '(m, nf, s3) :=
    match s2 with
    | 46%N :: t => take_digits t ip 0
    | _ => (ip, 0%nat, s2)
    end in
  match s3 with
  | [] =>
    if (ni + nf =? 0)%nat then None
    else
      Some (SF2Prim
              (if (m =? 0)%Z then S754_zero neg
               else
                 let '(q, e, l) :=
                   SFdiv_core_binary prec emax m 0 (10 ^ Z.of_nat nf) 0 in
                 binary_round_aux prec emax neg q e l))
  | _ => None
  end.

(** An interpreter restricted to ASCII input. No example formats a
    float, a list or a dict, so [repr] is a placeholder. *)
Definition ascii_runtime : Runtime :=
  {| float_of_str := decimal_of_str;
     unicode_Nd := fun _ => false;
     repr := fun _ => u "<repr>" |}.

Definition rio_address : pystr :=
  u "Rua das Flores, 123, Centro, Rio de Janeiro - RJ, CEP 20000-000, Brasil".
Definition rio_query : pystr :=
  u "das Flores, 123, Rio de Janeiro, RJ, Brasil".

(** On the equator: the Marco Zero monument of Macapá. *)
Definition macapa_address : pystr :=
  u "Av. Equatorial, 100, Centro, Macapá - AP, CEP 68900-000, Brasil".
Definition macapa_query : pystr := u "Equatorial, 100, Macapá, AP, Brasil".

(** A landmark, with no comma and no city. *)
Definition landmark : pystr := u "Cristo Redentor".

Definition test_key : pystr := u "AIzaSy-test-key".

Definition ok (data : pyval) : option response :=
  Some {| status_ok := true; body := Ret data |}.

(** A success envelope of the Geocoding API with one candidate. *)
Definition google_body (lat lng : pyval) : pyval :=
  PDict [(u "results",
          PList [PDict [(u "formatted_address", PStr (u "Brasil"));
                        (u "geometry",
                         PDict [(u "location",
                                 PDict [(u "lat", lat); (u "lng", lng)])])]]);
         (u "status", PStr (u "OK"))].

(** A Nominatim result list with one entry. *)
Definition nominatim_body (fields : pydict) : pyval :=
  PList [PDict ((u "display_name", PStr (u "Brasil")) :: fields)].

(** The environment holds [key] (or nothing); the two endpoints answer
    with [google] and [nominatim], whatever the query. *)
Definition world (key : option pystr) (google nominatim : option response)
  : World :=
  {| runtime := ascii_runtime;
     getenv := fun name =>
       if pystr_eqb name (u "GOOGLE_GEOCODING_API_KEY") then key else None;
     network := fun r =>
       if pystr_eqb (url r) google_url then google else nominatim |}.

Definition rio_world : World :=
  world (Some test_key)
        (ok (google_body (PFloat (-22.90625)%float) (PFloat (-43.171875)%float)))
        None.

Definition equator_world : World :=
  world (Some test_key)
        (ok (google_body (PFloat 0%float) (PFloat (-51.0625)%float)))
        (ok (PList [])).

Definition out_of_range_world : World :=
  world (Some test_key)
        (ok (google_body (PInt 200) (PInt 50)))
        (ok (nominatim_body [(u "lat", PStr (u "200")); (u "lon", PStr (u "50"))])).

Definition landmark_world : World :=
  world (Some test_key)
        (ok (google_body (PFloat (-22.953125)%float) (PFloat (-43.2109375)%float)))
        None.

Definition keyless_world : World := world None None None.

Definition missing_lat_world : World :=
  world None None (ok (nominatim_body [(u "lon", PStr (u "-43.1729"))])).

Definition null_lat_world : World :=
  world (Some test_key)
        (ok (google_body PNone (PFloat (-43.171875)%float)))
        None.


Import Models.

(** The scenario of the specification: Maria, two adults and a child. *)
Definition party : Event :=
  {| Event_id := 7;
     slug := u "festa-da-ana";
     title := PStr (u "Festa da Ana");
     host := {| email := u "host@x.com" |};
     allow_modifications := true;
     allow_cancellations := true |}.

Definition maria : Attendee :=
  {| id := 31;
     event_id := 7;
     whatsapp_number := u "+5521999990000";
     name := PStr (u "Maria");
     num_adults := PInt 2;
     num_children := PInt 1;
     comments := PStr [];
     status := PStr (u "confirmed") |}.

(** Maria cancelled, then changes her mind and sends a modification. *)
Definition cancelled_db : Attendees.Database :=
  {| Attendees.events := [party];
     Attendees.attendees := [set_status maria (PStr (u "cancelled"))] |}.

Definition modification : pyval :=
  PDict [(u "event_slug", PStr (u "festa-da-ana"));
         (u "whatsapp_number", PStr (u "+5521999990000"));
         (u "num_adults", PInt 3)].

Definition modified_db : Attendees.Database :=
  {| Attendees.events := [party];
     Attendees.attendees := [set_num_adults maria (PInt 3)] |}.

End Examples.


(* ================================================================== *)
(** * Vocabulary of the statements *)
(* ================================================================== *)

Module GeocodingSpec.

Import GeocodingService.

(** The environment holds a usable key for the primary provider. *)
Definition configured (w : World) (key : pystr) : Prop :=
  getenv w (u "GOOGLE_GEOCODING_API_KEY") = Some key
  /\ key <> [] /\ key <> u "SUA_CHAVE_AQUI".

(** The endpoint answers request [r] with status 2xx and the JSON [data]. *)
Definition answers (w : World) (r : request) (data : pyval) : Prop :=
  network w r = Some {| status_ok := true; body := Ret data |}.

(** [data] is a success envelope of the primary provider whose first
    candidate is at [(lat, lon)]:
    [{status: "OK", results: [{geometry: {location: {lat, lng}}}, ...]}]. *)
Definition first_candidate (rt : Runtime) (data : pyval) (lat lon : float)
  : Prop :=
  exists d r rest g l vlat vlng,
    data = PDict d /\
    dict_get d (u "status") = Some (PStr (u "OK")) /\
    dict_get d (u "results") = Some (PList (PDict r :: rest)) /\
    dict_get r (u "geometry") = Some (PDict g) /\
    dict_get g (u "location") = Some (PDict l) /\
    dict_get l (u "lat") = Some vlat /\ py_float rt vlat = Ret lat /\
    dict_get l (u "lng") = Some vlng /\ py_float rt vlng = Ret lon.

(** [data] is a result list of the secondary provider whose first entry
    is at [(lat, lon)]: [[{lat, lon, ...}, ...]]. *)
Definition first_result (rt : Runtime) (data : pyval) (lat lon : float)
  : Prop :=
  exists r rest vlat vlon,
    data = PList (PDict r :: rest) /\
    dict_get r (u "lat") = Some vlat /\ py_float rt vlat = Ret lat /\
    dict_get r (u "lon") = Some vlon /\ py_float rt vlon = Ret lon.

(** Neither a street name nor a city: the test of line 106. *)
Definition unextractable (address : pystr) : Prop :=
  str_truthy (extract_street address)
  && opt_truthy (fst (extract_city_state address)) = false.

End GeocodingSpec.

Module EmailSpec.

Import Models EmailService.

(** [x] occurs in [body]. *)
Definition includes (x body : pystr) : Prop :=
  exists a b, body = a ++ x ++ b.

(** The creation body up to the comments item, and from it on. *)
Definition before_comments (w : World) (event : Event) (attendee : Attendee)
  : pystr :=
  nl ++
  u "            <h2>Nova Confirmação de Presença!</h2>" ++ nl ++
  u "            <p><strong>" ++ str w (name attendee) ++
  u "</strong> confirmou presença no seu evento: <strong>" ++
  str w (title event) ++ u "</strong></p>" ++ nl ++
  u "            " ++ nl ++
  u "            <h3>Detalhes:</h3>" ++ nl ++
  u "            <ul>" ++ nl ++
  u "                <li>Adultos: " ++ str w (num_adults attendee) ++
  u "</li>" ++ nl ++
  u "                <li>Crianças: " ++ str w (num_children attendee) ++
  u "</li>" ++ nl ++
  u "                <li>WhatsApp: " ++ whatsapp_number attendee ++
  u "</li>" ++ nl ++
  u "                ".

Definition after_comments : pystr :=
  nl ++
  u "            </ul>" ++ nl ++
  u "            " ++ nl ++
  u "            <p>Veja todos os convidados no seu painel.</p>" ++ nl ++
  u "        ".

(** Whether the send call for [message] returns, rather than raises. *)
Definition delivered (w : World) (message : Mail) : bool :=
  match sendgrid w (getenv w (u "SENDGRID_API_KEY")) message with
  | Ret _ => true
  | Raise _ => false
  end.

End EmailSpec.

Module AttendeesSpec.

Import Models.

(** [b] is the RSVP [a], as the query of the route identifies it. *)
Definition same_rsvp (a b : Attendee) : Prop :=
  event_id b = event_id a /\ whatsapp_number b = whatsapp_number a.

End AttendeesSpec.

(* ================================================================== *)
(** * Vocabulary of the further properties *)
(* ================================================================== *)

Module GeocodingBehaviour.

Import GeocodingService.

(** [e] is what [response.json()] raised on a response that came back
    with a success status. *)
Definition decoder_raised (w : World) (e : exn) : Prop :=
  exists r resp,
    network w r = Some resp /\ status_ok resp = true /\ body resp = Raise e.

(** No [except] clause of the module names a class of [e]. *)
Definition uncaught (e : exn) : bool :=
  negb (is_RequestException e || is_ValueError e || is_KeyError e).

(** What a geocoding function may give back: nothing, an accepted
    pair, one of the three exceptions that its own operations raise
    and no clause catches, or an exception of the decoder that no
    clause catches. *)
Definition well_behaved (w : World) (r : res coords) : Prop :=
  match r with
  | Ret (None, None) => True
  | Ret (Some lat, Some lon) => accepted lat lon = true
  | Ret _ => False
  | Raise e =>
    e = TypeError \/ e = AttributeError \/ e = OverflowError
    \/ (decoder_raised w e /\ uncaught e = true)
  end.

(** The exceptions that the operations inside a [try] of the module
    can raise. *)
Definition raisable (w : World) (e : exn) : Prop :=
  (e <> IndexError /\ forall name, e <> OtherException name)
  \/ decoder_raised w e.

(** The same as [well_behaved], before the [except] clauses. *)
Definition well_tried (w : World) (r : res coords) : Prop :=
  match r with
  | Ret (None, None) => True
  | Ret (Some lat, Some lon) => accepted lat lon = true
  | Ret _ => False
  | Raise e => raisable w e
  end.

(** The request was not answered with a decodable body: it failed on
    the network, came back with an error status, or is not JSON. *)
Definition unusable (o : option response) : Prop :=
  match o with
  | None => True
  | Some resp => status_ok resp = false \/ body resp = Raise JSONDecodeError
  end.

End GeocodingBehaviour.

Module AddressSpec.

(** The six street types of the pattern of line 86. *)
Definition street_types : list pystr :=
  [u "Rua"; u "Av."; u "Avenida"; u "Travessa"; u "Alameda"; u "Praça"].

Definition comma_free (s : pystr) : Prop := Forall (fun x => x <> Re.comma) s.

Definition dash_free (s : pystr) : Prop := Forall (fun x => x <> 45%N) s.

Definition ascii_digits (s : pystr) : Prop :=
  Forall (fun x => (48 <= x <= 57)%N) s.

(** No hyphen before the next comma. *)
Fixpoint dashless (s : pystr) : bool :=
  match s with
  | [] => true
  | c :: s' =>
    if (c =? 44)%N then true
    else if (c =? 45)%N then false
    else dashless s'
  end.

(** The text after the state: nothing, or a comma and more. *)
Definition ends_field (rest : pystr) : Prop :=
  rest = [] \/ exists r, rest = 44%N :: r.

(** The format that the docstring of [geocode_address] expects:
    "<type> <name>, <number>, <neighbourhood>, <city> - <XX><rest>". *)
Definition documented_address (tok name number bairro city : pystr)
           (x y : N) (rest : pystr) : pystr :=
  tok ++ u " " ++ name ++ u ", " ++ number ++ u ", " ++ bairro
      ++ u ", " ++ city ++ u " - " ++ [x; y] ++ rest.

End AddressSpec.

Module EmailBodies.

Import Models EmailService.

(** The cancellation body up to the paragraph of the reason, and from
    it on. *)
Definition before_reason (w : World) (event : Event) (attendee : Attendee)
  : pystr :=
  nl ++
  u "            <h2>RSVP Cancelado</h2>" ++ nl ++
  u "            <p><strong>" ++ str w (name attendee) ++
  u "</strong> cancelou a presença em: <strong>" ++
  str w (title event) ++ u "</strong></p>" ++ nl ++
  u "            " ++ nl ++
  u "            ".

Definition after_reason : pystr := nl ++ u "        ".

(** The modification body up to the comments item, and from it on. *)
Definition before_modified_comments (w : World) (event : Event)
           (attendee : Attendee) : pystr :=
  nl ++
  u "            <h2>RSVP Modificado</h2>" ++ nl ++
  u "            <p><strong>" ++ str w (name attendee) ++
  u "</strong> modificou a confirmação para: <strong>" ++
  str w (title event) ++ u "</strong></p>" ++ nl ++
  u "            " ++ nl ++
  u "            <h3>Detalhes Atualizados:</h3>" ++ nl ++
  u "            <ul>" ++ nl ++
  u "                <li>Adultos: " ++ str w (num_adults attendee) ++
  u "</li>" ++ nl ++
  u "                <li>Crianças: " ++ str w (num_children attendee) ++
  u "</li>" ++ nl ++
  u "                ".

Definition after_modified_comments : pystr :=
  nl ++ u "            </ul>" ++ nl ++ u "        ".

End EmailBodies.

Module RoutesSpec.

Import Models EmailService Attendees AttendeeRoutes.

(** The attendee that the four assignments and the reactivation of
    [modify_rsvp] leave, for the body [d]. *)
Definition modified (d : pydict) (before : Attendee) : Attendee :=
  let pick key old :=
      match dict_get d (u key) with Some v => v | None => old end in
  {| id := id before;
     event_id := event_id before;
     whatsapp_number := whatsapp_number before;
     name := pick "name"%string (name before);
     num_adults := pick "num_adults"%string (num_adults before);
     num_children := pick "num_children"%string (num_children before);
     comments := pick "comments"%string (comments before);
     status := if eq_str (status before) (u "cancelled")
               then PStr (u "confirmed") else status before |}.

(** The body of the response to a successful modification that left
    the row [a]. *)
Definition modify_response (a : Attendee) : pyval :=
  PDict [(u "message", PStr (u "RSVP updated successfully"));
         (u "attendee",
          PDict [(u "id", PInt (id a));
                 (u "name", name a);
                 (u "num_adults", num_adults a);
                 (u "num_children", num_children a);
                 (u "comments", comments a);
                 (u "status", status a)])].

(** A request that does not succeed is answered with an error and one
    of three codes, and leaves the database as it was. *)
Definition refusal (db db' : Database) (body : pyval) (code : Z) : Prop :=
  db' = db
  /\ (code = 400 \/ code = 403 \/ code = 404)%Z
  /\ exists msg, body = PDict [(u "error", PStr msg)].

(** [body[part][key]] of a response, when it is there. *)
Definition field (body : pyval) (part key : string) : option pyval :=
  match body with
  | PDict d =>
    match dict_get d (u part) with
    | Some (PDict inner) => dict_get inner (u key)
    | _ => None
    end
  | _ => None
  end.

(** The attendee part of the response [found] shows the row [a]. *)
Definition reports (found : pyval) (a : Attendee) : Prop :=
  field found "attendee" "id" = Some (PInt (id a))
  /\ field found "attendee" "name" = Some (name a)
  /\ field found "attendee" "whatsapp_number" = Some (PStr (whatsapp_number a))
  /\ field found "attendee" "num_adults" = Some (num_adults a)
  /\ field found "attendee" "num_children" = Some (num_children a)
  /\ field found "attendee" "comments" = Some (comments a)
  /\ field found "attendee" "status" = Some (status a).

(** The exception came from a date column. *)
Definition from_dates (dates : Dates) (e : exn) : Prop :=
  (exists a, created_at_isoformat dates a = Raise e)
  \/ (exists ev, event_date_isoformat dates ev = Raise e).

(** [find_attendee] answered 200 with the row [a], or a date column
    raised. *)
Definition finds (dates : Dates) (r : res (pyval * Z)) (a : Attendee)
  : Prop :=
  match r with
  | Ret (found, code) => code = 200%Z /\ reports found a
  | Raise e => from_dates dates e
  end.

(** What the queries of the routes identify an RSVP by. *)
Definition rsvp_key (a : Attendee) : Z * pystr :=
  (event_id a, whatsapp_number a).

(** No two rows for the same event and number. *)
Definition unique_rsvps (db : Database) : Prop :=
  NoDup (map rsvp_key (attendees db)).


End RoutesSpec.

(* ================================================================== *)
(** * Further worlds for the examples *)
(* ================================================================== *)

Module MoreExamples.

Import Models Attendees AttendeeRoutes Examples.

(** Both endpoints are unreachable. *)
Definition offline_world : GeocodingService.World :=
  world (Some test_key) None None.

(** The primary endpoint is unreachable, the secondary finds nothing. *)
Definition google_down_world : GeocodingService.World :=
  world (Some test_key) None (ok (PList [])).

(** No key; the secondary provider answers with a body nested deeper
    than the decoder goes. *)
Definition deep_body_world : GeocodingService.World :=
  world None None
        (Some {| GeocodingService.status_ok := true;
                 GeocodingService.body :=
                   Raise (OtherException (u "RecursionError")) |}).

(** No key; the secondary provider finds the place. *)
Definition fallback_world : GeocodingService.World :=
  world None None
        (ok (nominatim_body [(u "lat", PStr (u "-22.90625"));
                             (u "lon", PStr (u "-43.171875"))])).

(** A mail provider that accepts every message. *)
Definition mail_world : EmailService.World :=
  {| EmailService.runtime := ascii_runtime;
     EmailService.getenv := fun _ => Some (u "SG.test-key");
     EmailService.sendgrid := fun _ _ => Ret 202%Z |}.

(** A database that stores a string as it is given and refuses
    anything else in the column, numbers the rows from the largest id,
    and has new RSVPs confirmed. *)
Definition strict_columns : Persistence :=
  {| text_column := fun v =>
       match v with
       | PStr s => Ret s
       | _ => Raise (OtherException (u "StatementError"))
       end;
     new_id := fun db => (fold_right Z.max 0 (map id (attendees db)) + 1)%Z;
     default_status := PStr (u "confirmed") |}.

(** Every row and event has its dates. *)
Definition dated : Dates :=
  {| created_at_isoformat := fun _ => Ret (u "2025-05-02T14:30:00");
     event_date_isoformat := fun _ => Ret (u "2025-06-14") |}.

Definition confirmed_db : Database :=
  {| events := [party]; attendees := [maria] |}.

(** The same party, with its RSVPs frozen by the host. *)
Definition frozen_party : Event :=
  {| Event_id := 7;
     slug := u "festa-da-ana";
     title := PStr (u "Festa da Ana");
     host := {| email := u "host@x.com" |};
     allow_modifications := false;
     allow_cancellations := false |}.

Definition frozen_db : Database :=
  {| events := [frozen_party]; attendees := [maria] |}.

Definition cancellation : pyval :=
  PDict [(u "event_slug", PStr (u "festa-da-ana"));
         (u "whatsapp_number", PStr (u "+5521999990000"))].

(** A second guest answers the invitation. *)
Definition rsvp_of_joao : pyval :=
  PDict [(u "event_slug", PStr (u "festa-da-ana"));
         (u "whatsapp_number", PStr (u "+5521988880000"));
         (u "name", PStr (u "João"));
         (u "num_adults", PInt 1)].

Definition joao : Attendee :=
  {| id := 32;
     event_id := 7;
     whatsapp_number := u "+5521988880000";
     name := PStr (u "João");
     num_adults := PInt 1;
     num_children := PInt 0;
     comments := PStr [];
     status := PStr (u "confirmed") |}.

Definition with_joao_db : Database :=
  {| events := [party]; attendees := [maria; joao] |}.

(** A body that is a list of the four names, not an object. *)
Definition names_only : pyval :=
  PList [PStr (u "event_slug"); PStr (u "whatsapp_number");
         PStr (u "name"); PStr (u "num_adults")].

End MoreExamples.

Unset Implicit Arguments.

(* ================================================================== *)
(** * Running the monad *)
(* ================================================================== *)

Lemma pystr_eqb_refl s : pystr_eqb s s = true.
Proof. unfold pystr_eqb. destruct (list_eq_dec N.eq_dec s s); congruence. Qed.

Lemma pystr_eqb_neq s t : s <> t -> pystr_eqb s t = false.
Proof. unfold pystr_eqb. destruct (list_eq_dec N.eq_dec s t); congruence. Qed.

Lemma str_truthy_true s : s <> [] -> str_truthy s = true.
Proof. destruct s; [congruence | reflexivity]. Qed.

Lemma calls_bind {E A B} (m : M E A) (k : A -> M E B) :
  calls (bind m k)
  = match result m with
    | Ret a => calls m ++ calls (k a)
    | Raise _ => calls m
    end.
Proof.
  destruct m as [[a|e] tr]; cbn; [|reflexivity]. destruct (k a); reflexivity.
Qed.

Lemma result_bind {E A B} (m : M E A) (k : A -> M E B) :
  result (bind m k)
  = match result m with
    | Ret a => result (k a)
    | Raise e => Raise e
    end.
Proof.
  destruct m as [[a|e] tr]; cbn; [|reflexivity]. destruct (k a); reflexivity.
Qed.

Lemma calls_bind_nil {E A B} (m : M E A) (k : A -> M E B) :
  calls m = [] -> (forall a, calls (k a) = []) -> calls (bind m k) = [].
Proof.
  intros Hm Hk. rewrite calls_bind, Hm.
  destruct (result m); [apply Hk | reflexivity].
Qed.

Lemma calls_bind_silent {E A B} (m : M E A) (k : A -> M E B) :
  (forall a, calls (k a) = []) -> calls (bind m k) = calls m.
Proof.
  intros Hk. rewrite calls_bind.
  destruct (result m); [rewrite Hk; apply app_nil_r | reflexivity].
Qed.

Lemma calls_try_except {E A} (body : M E A) clauses :
  Forall (fun c => calls (snd c) = []) clauses ->
  calls (try_except body clauses) = calls body.
Proof.
  intros Hc. destruct body as [[a|e] tr]; cbn; [reflexivity|].
  induction Hc as [|[c h] cl Hh _ IH]; cbn; [reflexivity|].
  destruct (c e).
  - destruct h. cbn in *. subst. apply app_nil_r.
  - exact IH.
Qed.

(** One step of a computation whose next operand is known. *)
Ltac py_step :=
  cbn [bind try_except find_handler
       GeocodingService.raise_for_status GeocodingService.json
       GeocodingService.status_ok GeocodingService.body
       GeocodingService.google_not_found
       ret raise lift get getitem getitem0 len truthy eq_str
       is_RequestException is_ValueError is_KeyError
       opt_float_truthy fst snd app negb orb andb].

Ltac py_run :=
  repeat (py_step;
          try match goal with
              | H : ?l = _ |- context [?l] => rewrite H
              end;
          try rewrite pystr_eqb_refl).

(** A computation built from [lift], [ret] and [raise] makes no call. *)
Ltac silent :=
  repeat first
    [ apply calls_bind_nil; [ | intro ]
    | match goal with
      | |- calls (if ?b then _ else _) = [] => destruct b
      | |- calls (match ?x with _ => _ end) = [] => destruct x
      end
    | reflexivity ].

(* ================================================================== *)
(** * The geocoder *)
(* ================================================================== *)

Import GeocodingService GeocodingSpec Examples.

Lemma url_distinct : google_url <> nominatim_url.
Proof. vm_compute. discriminate. Qed.

Lemma google_accepts w address key data lat lon :
  configured w key ->
  answers w (google_request address key) data ->
  first_candidate (runtime w) data lat lon ->
  accepted lat lon = true ->
  _geocode_with_google w address
  = (Ret (Some lat, Some lon), [google_request address key]).
Proof.
  intros (Hk & Ht & Hp) Hn
         (d & r & rest & g & l & vlat & vlng & -> & Hs & Hr & Hg & Hl
          & Hlat & Hflat & Hlng & Hflng) Hacc.
  apply str_truthy_true in Ht. apply pystr_eqb_neq in Hp.
  unfold answers in *.
  unfold _geocode_with_google, requests_get.
  py_run. reflexivity.
Qed.

Lemma google_rejects w address key data lat lon :
  configured w key ->
  answers w (google_request address key) data ->
  first_candidate (runtime w) data lat lon ->
  accepted lat lon = false ->
  _geocode_with_google w address
  = (Ret (None, None), [google_request address key]).
Proof.
  intros (Hk & Ht & Hp) Hn
         (d & r & rest & g & l & vlat & vlng & -> & Hs & Hr & Hg & Hl
          & Hlat & Hflat & Hlng & Hflng) Hacc.
  apply str_truthy_true in Ht. apply pystr_eqb_neq in Hp.
  unfold answers in *.
  unfold _geocode_with_google, requests_get.
  py_run. reflexivity.
Qed.

Lemma nominatim_rejects w address q data lat lon :
  simplify_address w address = Some q ->
  answers w (nominatim_request q) data ->
  first_result (runtime w) data lat lon ->
  accepted lat lon = false ->
  _geocode_with_nominatim w address
  = (Ret (None, None), [nominatim_request q]).
Proof.
  intros Hq Hn (r & rest & vlat & vlon & -> & Hlat & Hflat & Hlon & Hflon) Hacc.
  unfold answers in *.
  unfold _geocode_with_nominatim, requests_get.
  py_run. reflexivity.
Qed.

Lemma accepted_out_of_range lat lon :
  in_range lat lon = false -> accepted lat lon = false.
Proof. intros H. unfold accepted. rewrite H. apply andb_false_r. Qed.

(** The primary path makes no call, or the one call to its endpoint. *)
Lemma google_calls w address :
  calls (_geocode_with_google w address) = []
  \/ exists key,
      calls (_geocode_with_google w address) = [google_request address key].
Proof.
  unfold _geocode_with_google.
  destruct (getenv w _) as [key|]; [|left; reflexivity].
  destruct (_ || _); [left; reflexivity|].
  right. exists key.
  rewrite calls_try_except by (repeat constructor).
  rewrite calls_bind_silent; [reflexivity|].
  intro response. unfold raise_for_status, json, google_not_found. silent.
Qed.

(** The fallback path calls its endpoint exactly when the address
    simplifies, once, with the simplified address. *)
Lemma nominatim_calls w address :
  calls (_geocode_with_nominatim w address)
  = match simplify_address w address with
    | Some q => [nominatim_request q]
    | None => []
    end.
Proof.
  unfold _geocode_with_nominatim.
  rewrite calls_try_except by (repeat constructor).
  destruct (simplify_address w address) as [q|]; [|reflexivity].
  rewrite calls_bind_silent; [reflexivity|].
  intro response. unfold raise_for_status, json. silent.
Qed.

Lemma simplify_none w address :
  unextractable address -> simplify_address w address = None.
Proof.
  unfold unextractable, simplify_address. intros H.
  destruct (extract_city_state address) as [city state]. cbn [fst] in H.
  rewrite H. reflexivity.
Qed.

Lemma nominatim_unextractable w address :
  simplify_address w address = None ->
  _geocode_with_nominatim w address = (Ret (None, None), []).
Proof. intros H. unfold _geocode_with_nominatim. rewrite H. reflexivity. Qed.

(** X29. When the key is configured and the primary provider
    answers a non-empty address with a success envelope whose first
    candidate is within [-90,90] x [-180,180] and has neither
    coordinate equal to zero, [geocode_address] returns exactly that
    pair, and its only outbound call is the one to the primary
    provider: the secondary provider is not invoked. *)
Theorem X29_primary_coordinate_returned w address key data lat lon :
  address <> [] ->
  configured w key ->
  answers w (google_request address key) data ->
  first_candidate (runtime w) data lat lon ->
  in_range lat lon = true ->
  float_truthy lat = true -> float_truthy lon = true ->
  geocode_address w (Some address)
  = (Ret (Some lat, Some lon), [google_request address key]).
Proof.
  intros Ha Hc Hn Hf Hr Hlat Hlon.
  unfold geocode_address. rewrite (str_truthy_true _ Ha). cbn [negb].
  rewrite (google_accepts w address key data lat lon Hc Hn Hf)
    by (unfold accepted; rewrite Hlat, Hlon, Hr; reflexivity).
  cbn. rewrite Hlat, Hlon. reflexivity.
Qed.

Lemma X29_witness :
  geocode_address rio_world (Some rio_address)
  = (Ret (Some (-22.90625)%float, Some (-43.171875)%float),
     [google_request rio_address test_key]).
Proof.
  apply (X29_primary_coordinate_returned rio_world rio_address test_key
           (google_body (PFloat (-22.90625)%float) (PFloat (-43.171875)%float))).
  - discriminate.
  - repeat split; discriminate.
  - reflexivity.
  - unfold first_candidate, google_body. repeat eexists.
  - reflexivity.
  - reflexivity.
  - reflexivity.
Defined.

(** C2 (fails on the code). A field that is missing or null reaches
    [float(None)], whose [TypeError] no clause catches: with the entry
    of the secondary provider lacking ["lat"], and with the primary
    provider's ["lat"] being null, [geocode_address] raises. *)
Theorem C2_missing_or_null_field_propagates :
  geocode_address missing_lat_world (Some rio_address)
  = (Raise TypeError, [nominatim_request rio_query])
  /\ geocode_address null_lat_world (Some rio_address)
     = (Raise TypeError, [google_request rio_address test_key]).
Proof. split; vm_compute; reflexivity. Qed.

(** C3. The address
    "Rua das Flores, 123, Centro, Rio de Janeiro - RJ, CEP 20000-000, Brasil"
    simplifies to "das Flores, 123, Rio de Janeiro, RJ, Brasil", and
    that is the query the fallback path sends. *)
Theorem C3_rio_address_simplified w :
  simplify_address w rio_address = Some rio_query
  /\ calls (_geocode_with_nominatim w rio_address)
     = [nominatim_request rio_query].
Proof.
  assert (H : simplify_address w rio_address = Some rio_query)
    by (vm_compute; reflexivity).
  split; [exact H|]. rewrite nominatim_calls, H. reflexivity.
Qed.

(** C4. A coordinate outside [-90,90] x [-180,180] is rejected even
    when the provider reports success: on the primary path
    [_geocode_with_google] returns (None, None) and [geocode_address]
    goes on with the fallback; on the fallback path
    [_geocode_with_nominatim] returns (None, None). *)
Theorem C4_out_of_range_rejected w address lat lon :
  in_range lat lon = false ->
  (forall key data,
      address <> [] ->
      configured w key ->
      answers w (google_request address key) data ->
      first_candidate (runtime w) data lat lon ->
      _geocode_with_google w address
      = (Ret (None, None), [google_request address key])
      /\ result (geocode_address w (Some address))
         = result (_geocode_with_nominatim w address)
      /\ calls (geocode_address w (Some address))
         = google_request address key
           :: calls (_geocode_with_nominatim w address))
  /\ (forall q data,
         simplify_address w address = Some q ->
         answers w (nominatim_request q) data ->
         first_result (runtime w) data lat lon ->
         _geocode_with_nominatim w address
         = (Ret (None, None), [nominatim_request q])).
Proof.
  intros Hr. apply accepted_out_of_range in Hr. split.
  - intros key data Ha Hc Hn Hf.
    pose proof (google_rejects w address key data lat lon Hc Hn Hf Hr) as Hg.
    split; [exact Hg|].
    unfold geocode_address. rewrite (str_truthy_true _ Ha), Hg. cbn [negb].
    cbn. destruct (_geocode_with_nominatim w address). split; reflexivity.
  - intros q data Hq Hn Hf.
    exact (nominatim_rejects w address q data lat lon Hq Hn Hf Hr).
Qed.

Lemma C4_witness :
  in_range 200%float 50%float = false
  /\ (_geocode_with_google out_of_range_world rio_address
      = (Ret (None, None), [google_request rio_address test_key])
      /\ result (geocode_address out_of_range_world (Some rio_address))
         = result (_geocode_with_nominatim out_of_range_world rio_address)
      /\ calls (geocode_address out_of_range_world (Some rio_address))
         = google_request rio_address test_key
           :: calls (_geocode_with_nominatim out_of_range_world rio_address))
  /\ _geocode_with_nominatim out_of_range_world rio_address
     = (Ret (None, None), [nominatim_request rio_query]).
Proof.
  assert (Hr : in_range 200%float 50%float = false) by reflexivity.
  destruct (C4_out_of_range_rejected out_of_range_world rio_address
              200%float 50%float Hr) as [Hgoogle Hnominatim].
  split; [exact Hr|]. split.
  - apply (Hgoogle test_key (google_body (PInt 200) (PInt 50))).
    + discriminate.
    + repeat split; discriminate.
    + reflexivity.
    + unfold first_candidate, google_body. repeat eexists.
  - apply (Hnominatim rio_query
             (nominatim_body [(u "lat", PStr (u "200"));
                              (u "lon", PStr (u "50"))])).
    + reflexivity.
    + reflexivity.
    + unfold first_result, nominatim_body. repeat eexists.
Defined.

(** C5 (amended). For an address from which no street name or no city
    can be extracted, the fallback path returns (None, None) without a
    call, [geocode_address] never calls the secondary provider's
    endpoint, and it returns (None, None) whenever the primary path
    returned no usable pair; when the address is not empty and the
    primary path returned a usable pair, [geocode_address] returns
    that pair, with the calls of the primary path and no other. *)
Theorem C5_unextractable_address_never_queries_nominatim w address :
  unextractable address ->
  _geocode_with_nominatim w address = (Ret (None, None), [])
  /\ Forall (fun r => url r <> nominatim_url)
            (calls (geocode_address w (Some address)))
  /\ (forall lat lon,
         result (_geocode_with_google w address) = Ret (lat, lon) ->
         opt_float_truthy lat && opt_float_truthy lon = false ->
         result (geocode_address w (Some address)) = Ret (None, None))
  /\ (forall lat lon,
         address <> [] ->
         result (_geocode_with_google w address) = Ret (lat, lon) ->
         opt_float_truthy lat && opt_float_truthy lon = true ->
         result (geocode_address w (Some address)) = Ret (lat, lon)
         /\ calls (geocode_address w (Some address))
            = calls (_geocode_with_google w address)).
Proof.
  intros H. apply (simplify_none w) in H.
  pose proof (nominatim_unextractable w address H) as Hn.
  split; [exact Hn|]. split; [|split].
  - unfold geocode_address. destruct (negb _); [constructor|].
    rewrite calls_bind.
    assert (Hg : Forall (fun r => url r <> nominatim_url)
                        (calls (_geocode_with_google w address))).
    { destruct (google_calls w address) as [-> | [key ->]]; [constructor|].
      constructor; [apply url_distinct | constructor]. }
    destruct (result (_geocode_with_google w address)) as [[lat lon]|e];
      [|exact Hg].
    apply Forall_app. split; [exact Hg|].
    destruct (_ && _); [constructor|]. rewrite Hn. constructor.
  - intros lat lon Hg Hfalsy. unfold geocode_address.
    destruct (negb _); [reflexivity|].
    rewrite result_bind, Hg, Hfalsy, Hn. reflexivity.
  - intros lat lon Ha Hg Htruthy. unfold geocode_address.
    rewrite (str_truthy_true _ Ha). cbn [negb].
    rewrite result_bind, calls_bind, Hg, Htruthy.
    split; [reflexivity | apply app_nil_r].
Qed.

Lemma C5_witness :
  _geocode_with_nominatim keyless_world landmark = (Ret (None, None), [])
  /\ calls (geocode_address keyless_world (Some landmark)) = []
  /\ result (geocode_address keyless_world (Some landmark)) = Ret (None, None)
  /\ result (geocode_address landmark_world (Some landmark))
     = Ret (Some (-22.953125)%float, Some (-43.2109375)%float)
  /\ calls (geocode_address landmark_world (Some landmark))
     = calls (_geocode_with_google landmark_world landmark).
Proof.
  destruct (C5_unextractable_address_never_queries_nominatim
              keyless_world landmark) as (Hn & _ & Hres & _);
    [reflexivity|].
  destruct (C5_unextractable_address_never_queries_nominatim
              landmark_world landmark) as (_ & _ & _ & Hfound);
    [reflexivity|].
  split; [exact Hn|]. split; [reflexivity|].
  split; [apply (Hres None None); reflexivity|].
  apply Hfound.
  - discriminate.
  - vm_compute. reflexivity.
  - reflexivity.
Defined.

(** C5 as stated fails when the primary provider finds the place: no
    city can be extracted from "Cristo Redentor", and
    [geocode_address] returns the primary provider's coordinate, not
    (None, None). *)
Lemma C5_counterexample :
  unextractable landmark
  /\ geocode_address landmark_world (Some landmark)
     = (Ret (Some (-22.953125)%float, Some (-43.2109375)%float),
        [google_request landmark test_key])
  /\ result (geocode_address landmark_world (Some landmark))
     <> Ret (None, None).
Proof.
  split; [reflexivity|]. split; [vm_compute; reflexivity|].
  vm_compute. discriminate.
Qed.

(** C6. With the key of the primary provider absent from the
    environment, empty, or equal to the placeholder, no request goes
    to the primary provider's endpoint, [_geocode_with_google] returns
    (None, None) as for a place not found, and [geocode_address] does
    what the fallback path does. *)
Theorem C6_unconfigured_key_skips_google w :
  getenv w (u "GOOGLE_GEOCODING_API_KEY") = None
  \/ getenv w (u "GOOGLE_GEOCODING_API_KEY") = Some []
  \/ getenv w (u "GOOGLE_GEOCODING_API_KEY") = Some (u "SUA_CHAVE_AQUI") ->
  (forall address_full,
      Forall (fun r => url r <> google_url)
             (calls (geocode_address w address_full)))
  /\ (forall address,
         _geocode_with_google w address = (Ret (None, None), [])
         /\ geocode_address w (Some address)
            = _geocode_with_nominatim w address).
Proof.
  intros Hkey.
  assert (Hg : forall address,
             _geocode_with_google w address = (Ret (None, None), [])).
  { intros address. unfold _geocode_with_google.
    destruct Hkey as [-> | [-> | ->]]; reflexivity. }
  assert (He : forall address,
             geocode_address w (Some address)
             = _geocode_with_nominatim w address).
  { intros address. unfold geocode_address. destruct address as [|c address].
    - symmetry. apply nominatim_unextractable. reflexivity.
    - cbn [str_truthy negb]. rewrite Hg. cbn.
      destruct (_geocode_with_nominatim w (c :: address)). reflexivity. }
  split; [|intros address; split; [apply Hg | apply He]].
  intros [address|]; [|constructor].
  rewrite He, nominatim_calls.
  destruct (simplify_address w address); constructor; [|constructor].
  cbn [url nominatim_request]. intros Heq. apply url_distinct. congruence.
Qed.

Lemma C6_witness :
  calls (geocode_address keyless_world (Some rio_address))
  = [nominatim_request rio_query]
  /\ Forall (fun r => url r <> google_url)
            (calls (geocode_address keyless_world (Some rio_address)))
  /\ geocode_address keyless_world (Some rio_address)
     = _geocode_with_nominatim keyless_world rio_address.
Proof.
  destruct (C6_unconfigured_key_skips_google keyless_world) as (Hc & He).
  - left. reflexivity.
  - split; [reflexivity|]. split; [apply Hc | apply He].
Defined.

(** C7. For an address that is absent or empty, [geocode_address]
    returns (None, None) and makes no outbound call. *)
Theorem C7_falsy_address_returns_at_once w address_full :
  opt_truthy address_full = false ->
  geocode_address w address_full = (Ret (None, None), []).
Proof.
  destruct address_full as [address|]; cbn; [|reflexivity].
  intros ->. reflexivity.
Qed.

Lemma C7_witness :
  geocode_address rio_world (Some []) = (Ret (None, None), [])
  /\ geocode_address rio_world None = (Ret (None, None), []).
Proof.
  split; apply C7_falsy_address_returns_at_once; reflexivity.
Defined.

(* ================================================================== *)
(** * The notifier *)
(* ================================================================== *)

Import Models EmailService EmailSpec.

Lemma includes_here x b : includes x (x ++ b).
Proof. exists [], b. reflexivity. Qed.

Lemma includes_later x y b : includes x b -> includes x (y ++ b).
Proof.
  intros (a & c & ->). exists (y ++ a), c. rewrite <- app_assoc. reflexivity.
Qed.

Ltac includes :=
  match goal with
  | |- includes ?x (?x ++ _) => apply includes_here
  | |- includes ?x (_ ++ _) => apply includes_later; includes
  end.

Lemma rsvp_body_split w event attendee :
  html_content (rsvp_message w event attendee)
  = before_comments w event attendee
    ++ comments_item w attendee ++ after_comments.
Proof.
  unfold rsvp_message, before_comments, after_comments.
  cbn [html_content].
  repeat rewrite <- app_assoc. reflexivity.
Qed.

Lemma before_comments_keeps w event attendee v :
  before_comments w event (set_comments attendee v)
  = before_comments w event attendee.
Proof. reflexivity. Qed.

(** C8. The HTML body of the creation notification is a fixed text
    around the comments: with the comments the empty string it is
    that text alone, with no list item for them; with comments [c :: s]
    it has the item [<li>Comentários: ...</li>] with the comments
    verbatim at that place. Whatever the comments, the body includes
    the attendee's name, the event title, the adult and child counts
    and the WhatsApp number. *)
Theorem C8_creation_body w event attendee :
  exists before after,
    html_content (rsvp_message w event (set_comments attendee (PStr [])))
    = before ++ after
    /\ (forall c s,
           html_content
             (rsvp_message w event (set_comments attendee (PStr (c :: s))))
           = before
             ++ (u "<li>Comentários: " ++ (c :: s) ++ u "</li>") ++ after)
    /\ (forall v,
           let body :=
               html_content (rsvp_message w event (set_comments attendee v)) in
           includes (str w (name attendee)) body
           /\ includes (str w (title event)) body
           /\ includes (str w (num_adults attendee)) body
           /\ includes (str w (num_children attendee)) body
           /\ includes (whatsapp_number attendee) body).
Proof.
  exists (before_comments w event attendee), after_comments.
  split; [|split].
  - rewrite rsvp_body_split, before_comments_keeps. reflexivity.
  - intros c s. rewrite rsvp_body_split, before_comments_keeps. reflexivity.
  - intros v body. subst body.
    rewrite rsvp_body_split, before_comments_keeps.
    unfold before_comments. repeat rewrite <- app_assoc.
    repeat split; includes.
Qed.

(** C9. Each of the three notifiers makes the one send call and
    returns [True] when that call returns and [False] when it raises,
    whatever the exception; none of them raises. *)
Theorem C9_notifiers_return_booleans w event attendee changes reason :
  send_rsvp_notification w event attendee
  = (Ret (delivered w (rsvp_message w event attendee)),
     [rsvp_message w event attendee])
  /\ send_modification_notification w event attendee changes
     = (Ret (delivered w (modification_message w event attendee)),
        [modification_message w event attendee])
  /\ send_cancellation_notification w event attendee reason
     = (Ret (delivered w (cancellation_message w event attendee reason)),
        [cancellation_message w event attendee reason]).
Proof.
  unfold send_rsvp_notification, send_modification_notification,
         send_cancellation_notification, delivered, sg_send.
  repeat split;
    match goal with
    | |- context [sendgrid w ?k ?m] => destruct (sendgrid w k m)
    end; reflexivity.
Qed.

(* ================================================================== *)
(** * The modify-RSVP route *)
(* ================================================================== *)

Import Attendees AttendeesSpec.

Lemma update_field_dict d key set attendee :
  update_field (PDict d) key set attendee
  = Ret (match dict_get d (u key) with
         | Some v => set attendee v
         | None => attendee
         end).
Proof.
  unfold update_field. cbn [contains rbind getitem].
  destruct (dict_get d (u key)); reflexivity.
Qed.

Lemma find_replace_first p a a' l :
  find p l = Some a -> p a' = true ->
  find p (replace_first p a' l) = Some a'.
Proof.
  intros Hf Hp. induction l as [|x l IH]; cbn in *; [discriminate|].
  destruct (p x) eqn:Hx.
  - cbn. rewrite Hp. reflexivity.
  - cbn. rewrite Hx. apply IH. exact Hf.
Qed.

(** An assignment to one of the four fields leaves the identity of the
    RSVP and its status alone. *)
Lemma update_field_keeps d key set a a' :
  (forall x v, same_rsvp x (set x v) /\ status (set x v) = status x) ->
  update_field (PDict d) key set a = Ret a' ->
  same_rsvp a a' /\ status a' = status a.
Proof.
  intros Hset. rewrite update_field_dict. intros [= <-].
  destruct (dict_get d (u key)); [apply Hset|]. repeat split.
Qed.

(** C10. When a modify-RSVP request succeeds (status 200), the RSVP
    it found is, after the request, not in the cancelled state; and
    if it was cancelled before, it is confirmed after. *)
Theorem C10_modified_rsvp_is_not_cancelled db data db' body :
  modify_rsvp db data = Ret (db', (body, 200%Z)) ->
  exists slug_v number_v event before after,
    get data (u "event_slug") PNone = Ret slug_v
    /\ get data (u "whatsapp_number") PNone = Ret number_v
    /\ first_event db slug_v = Some event
    /\ first_attendee db event number_v = Some before
    /\ first_attendee db' event number_v = Some after
    /\ (eq_str (status before) (u "cancelled") = true ->
        status after = PStr (u "confirmed"))
    /\ eq_str (status after) (u "cancelled") = false.
Proof.
  unfold modify_rsvp. destruct data as [| | | | | |d]; try discriminate.
  cbn [get rbind].
  set (slug_v := match dict_get d (u "event_slug") with
                 | Some x => x | None => PNone end).
  set (number_v := match dict_get d (u "whatsapp_number") with
                   | Some x => x | None => PNone end).
  destruct (negb (truthy slug_v) || negb (truthy number_v)); [discriminate|].
  destruct (first_event db slug_v) as [event|] eqn:He; [|discriminate].
  destruct (negb (allow_modifications event)); [discriminate|].
  destruct (first_attendee db event number_v) as [before|] eqn:Ha;
    [|discriminate].
  destruct (update_field (PDict d) "name" set_name before)
    as [a1|] eqn:H1; [|discriminate].
  apply update_field_keeps in H1; [|repeat split].
  cbn [rbind].
  destruct (update_field (PDict d) "num_adults" set_num_adults a1)
    as [a2|] eqn:H2; [|discriminate].
  apply update_field_keeps in H2; [|repeat split].
  cbn [rbind].
  destruct (update_field (PDict d) "num_children" set_num_children a2)
    as [a3|] eqn:H3; [|discriminate].
  apply update_field_keeps in H3; [|repeat split].
  cbn [rbind].
  destruct (update_field (PDict d) "comments" set_comments a3)
    as [a4|] eqn:H4; [|discriminate].
  apply update_field_keeps in H4; [|repeat split].
  cbn [rbind].
  destruct H1 as ((E1 & W1) & S1), H2 as ((E2 & W2) & S2),
           H3 as ((E3 & W3) & S3), H4 as ((E4 & W4) & S4).
  assert (Hst : status a4 = status before) by congruence.
  assert (Hid : event_id a4 = event_id before) by congruence.
  assert (Hwa : whatsapp_number a4 = whatsapp_number before) by congruence.
  intros [= <- _].
  exists slug_v, number_v, event, before.
  eexists. repeat (split; [reflexivity || eassumption |]).
  assert (Hrow : is_rsvp event number_v before = true).
  { unfold first_attendee in Ha. apply find_some in Ha. apply Ha. }
  split; [|split].
  - unfold first_attendee, commit. cbn [attendees].
    eapply find_replace_first; [exact Ha|].
    unfold is_rsvp in *.
    destruct (eq_str (status a4) (u "cancelled"));
      cbn [set_status event_id whatsapp_number]; rewrite Hid, Hwa; exact Hrow.
  - rewrite Hst. intros ->. reflexivity.
  - destruct (eq_str (status a4) (u "cancelled")) eqn:Hc;
      [reflexivity | exact Hc].
Qed.

Lemma C10_witness :
  exists slug_v number_v event before after,
    get modification (u "event_slug") PNone = Ret slug_v
    /\ get modification (u "whatsapp_number") PNone = Ret number_v
    /\ first_event cancelled_db slug_v = Some event
    /\ first_attendee cancelled_db event number_v = Some before
    /\ first_attendee modified_db event number_v = Some after
    /\ (eq_str (status before) (u "cancelled") = true ->
        status after = PStr (u "confirmed"))
    /\ eq_str (status after) (u "cancelled") = false.
Proof.
  eapply (C10_modified_rsvp_is_not_cancelled
            cancelled_db modification modified_db).
  vm_compute. reflexivity.
Defined.

(* ================================================================== *)
(** * The geocoder: what it returns, raises and calls *)
(* ================================================================== *)

Import GeocodingService GeocodingSpec GeocodingBehaviour AddressSpec.
Import Examples MoreExamples.

Lemma result_ind {E A B} (Q : res B -> Prop) (m : M E A) (k : A -> M E B) :
  (forall e, result m = Raise e -> Q (Raise e)) ->
  (forall a, result m = Ret a -> Q (result (k a))) ->
  Q (result (bind m k)).
Proof.
  intros Hr Hk. rewrite result_bind.
  destruct (result m) as [a|e]; [apply Hk | apply Hr]; reflexivity.
Qed.

(** ** The exceptions of each operation *)

Lemma get_raises v k d e : get v k d = Raise e -> e = AttributeError.
Proof. destruct v; cbn; congruence. Qed.

Lemma getitem_raises v k e :
  getitem v k = Raise e -> e = KeyError \/ e = TypeError.
Proof.
  destruct v; cbn; try (intros [= <-]; auto; fail).
  destruct (dict_get d k); intros [= <-]; auto.
Qed.

Lemma getitem0_raises v e :
  truthy v = true -> getitem0 v = Raise e -> e = KeyError \/ e = TypeError.
Proof.
  destruct v as [| | | |s|l|d]; cbn; try (intros _ [= <-]; auto; fail).
  - destruct s; [discriminate | intros _ [=]].
  - destruct l; [discriminate | intros _ [=]].
Qed.

Lemma len_raises v e : len v = Raise e -> e = TypeError.
Proof. destruct v; cbn; congruence. Qed.

Lemma float_of_int_raises z e :
  float_of_int z = Raise e -> e = OverflowError.
Proof.
  unfold float_of_int. destruct (binary_normalize _ _ _ _ _); congruence.
Qed.

Lemma py_float_raises rt v e :
  py_float rt v = Raise e ->
  e = TypeError \/ e = ValueError \/ e = OverflowError.
Proof.
  destruct v; cbn; try (intros [= <-]; auto; fail).
  - intros H. apply float_of_int_raises in H. auto.
  - destruct (float_of_str rt s); intros [= <-]; auto.
Qed.

(** A key that [get] finds truthy is the one [getitem] returns. *)
Lemma get_getitem v k d x y :
  get v k d = Ret x -> getitem v k = Ret y -> truthy x = truthy y.
Proof.
  destruct v; cbn; try discriminate.
  destruct (dict_get d0 k); congruence.
Qed.

Ltac raisable :=
  repeat match goal with
         | H : _ \/ _ |- _ => destruct H
         end;
  subst; cbn;
  first [ exact I | left; split; [discriminate | intros; discriminate] ].

(** The exception of the step [H] may reach the [except] clauses. *)
Ltac raised H :=
  cbn [result lift raise ret fst] in H;
  first
    [ apply get_raises in H
    | apply getitem_raises in H
    | apply len_raises in H
    | apply py_float_raises in H
    | discriminate H
    | injection H as <- ];
  raisable.

Ltac tried :=
  repeat (apply result_ind;
          [ let e := fresh "e" in
            let H := fresh "H" in
            intros e H; raised H
          | intros ? ? ]).

Lemma requests_get_raises w r e :
  result (requests_get w r) = Raise e -> e = RequestException.
Proof. unfold requests_get. cbn. destruct (network w r); congruence. Qed.

Lemma raise_for_status_raises resp e :
  result (raise_for_status resp) = Raise e -> e = HTTPError.
Proof. unfold raise_for_status. destruct (status_ok resp); cbn; congruence. Qed.

Lemma json_raises w r response e :
  result (requests_get w r) = Ret response ->
  result (raise_for_status response) = Ret tt ->
  result (json response) = Raise e ->
  decoder_raised w e.
Proof.
  unfold requests_get, raise_for_status, json. cbn [result lift fst].
  intros Hresp Hok He. exists r, response.
  destruct (network w r) as [resp|]; [|discriminate Hresp].
  injection Hresp as ->.
  destruct (status_ok response); [|discriminate Hok].
  repeat split. exact He.
Qed.

(** ** The two providers *)

Lemma google_not_found_tried w data :
  well_tried w (result (google_not_found data)).
Proof. unfold google_not_found. tried. exact I. Qed.

Lemma google_body_tried w address key :
  well_tried w
    (result
       (response <- requests_get w (google_request address key) ;;
        raise_for_status response ;;;
        data <- json response ;;
        status <- lift (get data (u "status") PNone) ;;
        found <- (if eq_str status (u "OK")
                  then results <- lift (get data (u "results") PNone) ;;
                       ret (truthy results)
                  else ret false) ;;
        if found : bool then
          results <- lift (getitem data (u "results")) ;;
          result <- lift (getitem0 results) ;;
          geometry <- lift (getitem result (u "geometry")) ;;
          location <- lift (getitem geometry (u "location")) ;;
          vlat <- lift (getitem location (u "lat")) ;;
          lat <- lift (py_float (runtime w) vlat) ;;
          vlng <- lift (getitem location (u "lng")) ;;
          lon <- lift (py_float (runtime w) vlng) ;;
          if accepted lat lon then
            _ <- lift (get result (u "formatted_address") (PStr [])) ;;
            ret (Some lat, Some lon)
          else google_not_found data
        else google_not_found data)).
Proof.
  apply result_ind; [intros e H; apply requests_get_raises in H; raisable|].
  intros response Hresp.
  apply result_ind; [intros e H; apply raise_for_status_raises in H; raisable|].
  intros [] Hok.
  apply result_ind;
    [intros e H; right; exact (json_raises _ _ _ _ Hresp Hok H)|].
  intros data _.
  apply result_ind; [intros e H; raised H|]. intros status _.
  apply result_ind.
  { intros e H. destruct (eq_str status (u "OK")); [|discriminate H].
    rewrite result_bind in H. cbn [result lift fst] in H.
    destruct (get data (u "results") PNone) eqn:Hg; [discriminate H|].
    injection H as <-. apply get_raises in Hg. raisable. }
  intros [|] Hfound; [|apply google_not_found_tried].
  destruct (eq_str status (u "OK")); [|discriminate Hfound].
  rewrite result_bind in Hfound. cbn [result lift ret fst] in Hfound.
  destruct (get data (u "results") PNone) as [v|] eqn:Hv; [|discriminate Hfound].
  injection Hfound as Htruthy.
  apply result_ind; [intros e H; raised H|]. intros results Hresults.
  cbn [result lift fst] in Hresults.
  rewrite (get_getitem _ _ _ _ _ Hv Hresults) in Htruthy.
  apply result_ind.
  { intros e H. cbn [result lift fst] in H.
    apply (getitem0_raises _ _ Htruthy) in H. raisable. }
  intros result _.
  tried.
  destruct (accepted _ _) eqn:Hacc; [|apply google_not_found_tried].
  tried. exact Hacc.
Qed.

Lemma caught_or_benign w e :
  raisable w e ->
  uncaught e = false
  \/ e = TypeError \/ e = AttributeError \/ e = OverflowError
  \/ (decoder_raised w e /\ uncaught e = true).
Proof.
  intros [[Hi Ho] | Hd].
  - destruct e; cbn; auto 10; congruence.
  - destruct (uncaught e) eqn:Hu; auto 10.
Qed.

Lemma try_google_well_behaved w (body : M request coords) :
  well_tried w (result body) ->
  well_behaved w
    (result (try_except body
               [(is_RequestException, ret (None, None));
                (fun e => is_ValueError e || is_KeyError e, ret (None, None))])).
Proof.
  destruct body as [[[[lat|] [lon|]]|e] tr]; cbn; try tauto.
  intros H. apply caught_or_benign in H.
  destruct (is_RequestException e) eqn:Hr; [exact I|].
  destruct (is_ValueError e) eqn:Hv; [exact I|].
  destruct (is_KeyError e) eqn:Hk; [exact I|].
  assert (Hu : uncaught e = true)
    by (unfold uncaught; rewrite Hr, Hv, Hk; reflexivity).
  cbn. destruct H as [H | H]; [congruence | exact H].
Qed.

Lemma try_nominatim_well_behaved w (body : M request coords) :
  well_tried w (result body) ->
  well_behaved w
    (result (try_except body
               [(fun e => is_RequestException e || is_ValueError e
                          || is_KeyError e, ret (None, None))])).
Proof.
  destruct body as [[[[lat|] [lon|]]|e] tr]; cbn; try tauto.
  intros H. apply caught_or_benign in H.
  destruct (is_RequestException e) eqn:Hr; [exact I|].
  destruct (is_ValueError e) eqn:Hv; [exact I|].
  destruct (is_KeyError e) eqn:Hk; [exact I|].
  assert (Hu : uncaught e = true)
    by (unfold uncaught; rewrite Hr, Hv, Hk; reflexivity).
  cbn. destruct H as [H | H]; [congruence | exact H].
Qed.

Lemma google_well_behaved w address :
  well_behaved w (result (_geocode_with_google w address)).
Proof.
  unfold _geocode_with_google.
  destruct (getenv w _) as [key|]; [|exact I].
  destruct (_ || _); [exact I|].
  apply try_google_well_behaved, google_body_tried.
Qed.

Lemma nominatim_well_behaved w address :
  well_behaved w (result (_geocode_with_nominatim w address)).
Proof.
  unfold _geocode_with_nominatim.
  apply try_nominatim_well_behaved.
  destruct (simplify_address w address) as [q|]; [|exact I].
  apply result_ind; [intros e H; apply requests_get_raises in H; raisable|].
  intros response Hresp.
  apply result_ind; [intros e H; apply raise_for_status_raises in H; raisable|].
  intros [] Hok.
  apply result_ind;
    [intros e H; right; exact (json_raises _ _ _ _ Hresp Hok H)|].
  intros data _.
  apply result_ind.
  { intros e H. destruct (truthy data); [|discriminate H].
    rewrite result_bind in H. cbn [result lift fst] in H.
    destruct (len data) eqn:Hl; [discriminate H|].
    injection H as <-. apply len_raises in Hl. raisable. }
  intros [|] Hnonempty; [|exact I].
  destruct (truthy data) eqn:Htruthy; [|discriminate Hnonempty].
  apply result_ind.
  { intros e H. cbn [result lift fst] in H.
    apply (getitem0_raises _ _ Htruthy) in H. raisable. }
  intros result _.
  tried.
  destruct (accepted _ _) eqn:Hacc; [exact Hacc | exact I].
Qed.

Lemma geocode_well_behaved w address_full :
  well_behaved w (result (geocode_address w address_full)).
Proof.
  destruct address_full as [address|]; [|exact I].
  unfold geocode_address. destruct (negb _); [exact I|].
  pose proof (google_well_behaved w address) as Hg.
  apply result_ind.
  - intros e H. rewrite H in Hg. exact Hg.
  - intros [lat lon] H. rewrite H in Hg.
    destruct (_ && _); [exact Hg | apply nominatim_well_behaved].
Qed.

(** X1. Whatever the environment holds and the providers answer, a
    pair that [geocode_address] returns is either (None, None) or a
    latitude and a longitude that are both present, within the
    geographic bounds and different from zero: never half a pair, never
    a coordinate out of range. *)
Theorem X1_returned_coordinates_are_valid w address_full lat lon :
  result (geocode_address w address_full) = Ret (lat, lon) ->
  (lat = None /\ lon = None)
  \/ exists x y,
      lat = Some x /\ lon = Some y
      /\ in_range x y = true
      /\ float_truthy x = true /\ float_truthy y = true.
Proof.
  intros H. pose proof (geocode_well_behaved w address_full) as Hw.
  rewrite H in Hw. cbn in Hw.
  destruct lat as [x|], lon as [y|]; try contradiction; [right | left; auto].
  exists x, y. unfold accepted in Hw.
  apply andb_prop in Hw as [Hw Hr]. apply andb_prop in Hw as [Hx Hy]. auto.
Qed.

Lemma X1_witness :
  (Some (-22.90625)%float = None /\ Some (-43.171875)%float = None)
  \/ exists x y,
      Some (-22.90625)%float = Some x /\ Some (-43.171875)%float = Some y
      /\ in_range x y = true
      /\ float_truthy x = true /\ float_truthy y = true.
Proof.
  apply (X1_returned_coordinates_are_valid rio_world (Some rio_address)).
  vm_compute. reflexivity.
Defined.

(** X2. An exception that leaves [geocode_address] is a [TypeError],
    an [AttributeError] or an [OverflowError] (those that a response
    of an unexpected shape makes [float], [.get], [len] and the
    subscripts raise), or it is what [response.json()] raised on a
    response with a success status and no [except] clause names: a
    [RecursionError] on a body nested too deep, for one. A failed
    request, an error status, a body that is not JSON, a missing key,
    an empty list and a number that does not parse are all caught. *)
Theorem X2_escaping_exceptions w address_full e :
  result (geocode_address w address_full) = Raise e ->
  e = TypeError \/ e = AttributeError \/ e = OverflowError
  \/ (decoder_raised w e /\ uncaught e = true).
Proof.
  intros H. pose proof (geocode_well_behaved w address_full) as Hw.
  rewrite H in Hw. exact Hw.
Qed.

Lemma X2_witness :
  OtherException (u "RecursionError") = TypeError
  \/ OtherException (u "RecursionError") = AttributeError
  \/ OtherException (u "RecursionError") = OverflowError
  \/ (decoder_raised deep_body_world (OtherException (u "RecursionError"))
      /\ uncaught (OtherException (u "RecursionError")) = true).
Proof.
  apply (X2_escaping_exceptions deep_body_world (Some rio_address)).
  vm_compute. reflexivity.
Defined.

(** ** The zero coordinate *)

(** C1 (fails on the code). A first candidate of the primary provider
    that is within [-90,90] x [-180,180] but has a latitude or a
    longitude equal to zero is not returned: the test [lat and lon] of
    line 61 takes the float 0.0 for an absent value, so
    [_geocode_with_google] returns (None, None) as for a place not
    found, and [geocode_address] goes on with the fallback path and
    returns what that one gives, which is never the pair of the
    primary provider. *)
Theorem C1_zero_coordinate_discarded w address key data lat lon :
  address <> [] ->
  configured w key ->
  answers w (google_request address key) data ->
  first_candidate (runtime w) data lat lon ->
  in_range lat lon = true ->
  float_truthy lat = false \/ float_truthy lon = false ->
  _geocode_with_google w address
  = (Ret (None, None), [google_request address key])
  /\ result (geocode_address w (Some address))
     = result (_geocode_with_nominatim w address)
  /\ calls (geocode_address w (Some address))
     = google_request address key :: calls (_geocode_with_nominatim w address)
  /\ result (geocode_address w (Some address)) <> Ret (Some lat, Some lon).
Proof.
  intros Ha Hc Hn Hf Hr Hz.
  assert (Hacc : accepted lat lon = false).
  { unfold accepted. destruct Hz as [-> | ->]; [reflexivity|].
    rewrite andb_false_r. reflexivity. }
  pose proof (google_rejects w address key data lat lon Hc Hn Hf Hacc) as Hg.
  assert (Hres : result (geocode_address w (Some address))
                 = result (_geocode_with_nominatim w address)
                 /\ calls (geocode_address w (Some address))
                    = google_request address key
                      :: calls (_geocode_with_nominatim w address)).
  { unfold geocode_address. rewrite (str_truthy_true _ Ha), Hg. cbn [negb].
    cbn. destruct (_geocode_with_nominatim w address). split; reflexivity. }
  destruct Hres as [Hres Hcalls].
  split; [exact Hg|]. split; [exact Hres|]. split; [exact Hcalls|].
  rewrite Hres. intros Hpair.
  pose proof (nominatim_well_behaved w address) as Hw.
  rewrite Hpair in Hw. cbn in Hw. congruence.
Qed.

Lemma C1_witness :
  _geocode_with_google equator_world macapa_address
  = (Ret (None, None), [google_request macapa_address test_key])
  /\ result (geocode_address equator_world (Some macapa_address))
     = result (_geocode_with_nominatim equator_world macapa_address)
  /\ calls (geocode_address equator_world (Some macapa_address))
     = google_request macapa_address test_key
       :: calls (_geocode_with_nominatim equator_world macapa_address)
  /\ result (geocode_address equator_world (Some macapa_address))
     <> Ret (Some 0%float, Some (-51.0625)%float).
Proof.
  apply (C1_zero_coordinate_discarded
           equator_world macapa_address test_key
           (google_body (PFloat 0%float) (PFloat (-51.0625)%float))
           0%float (-51.0625)%float).
  - discriminate.
  - repeat split; discriminate.
  - reflexivity.
  - unfold first_candidate, google_body. repeat eexists.
  - reflexivity.
  - left. reflexivity.
Defined.

(** On the equator: the primary provider finds the Marco Zero at
    latitude 0.0, [geocode_address] asks the secondary provider, which
    finds nothing, and returns (None, None). *)
Lemma macapa_is_not_geocoded :
  geocode_address equator_world (Some macapa_address)
  = (Ret (None, None),
     [google_request macapa_address test_key;
      nominatim_request macapa_query]).
Proof. vm_compute. reflexivity. Qed.

(** ** When a provider does not answer *)

Lemma google_unusable w address key :
  getenv w (u "GOOGLE_GEOCODING_API_KEY") = Some key ->
  unusable (network w (google_request address key)) ->
  result (_geocode_with_google w address) = Ret (None, None).
Proof.
  intros Hk Hu. unfold _geocode_with_google. rewrite Hk.
  destruct (_ || _); [reflexivity|].
  unfold requests_get.
  destruct (network w (google_request address key)) as [[ok b]|];
    [|reflexivity].
  cbn in Hu. destruct Hu as [-> | ->]; [reflexivity|].
  destruct ok; reflexivity.
Qed.

Lemma nominatim_unusable w address :
  (forall q, unusable (network w (nominatim_request q))) ->
  result (_geocode_with_nominatim w address) = Ret (None, None).
Proof.
  intros Hu. unfold _geocode_with_nominatim.
  destruct (simplify_address w address) as [q|]; [|reflexivity].
  specialize (Hu q). unfold requests_get.
  destruct (network w (nominatim_request q)) as [[ok b]|]; [|reflexivity].
  cbn in Hu. destruct Hu as [-> | ->]; [reflexivity|].
  destruct ok; reflexivity.
Qed.

(** X3. When no request is answered with a decodable body (each one
    fails on the network, comes back with an error status, or is not
    JSON), [geocode_address] returns (None, None) and raises nothing,
    whatever the address and the key. *)
Theorem X3_outage_gives_no_coordinates w address_full :
  (forall r, unusable (network w r)) ->
  result (geocode_address w address_full) = Ret (None, None).
Proof.
  intros Hu. destruct address_full as [address|]; [|reflexivity].
  unfold geocode_address. destruct (negb _); [reflexivity|].
  rewrite result_bind.
  assert (Hg : result (_geocode_with_google w address) = Ret (None, None)).
  { destruct (getenv w (u "GOOGLE_GEOCODING_API_KEY")) as [key|] eqn:Hk.
    - apply (google_unusable w address key Hk), Hu.
    - unfold _geocode_with_google. rewrite Hk. reflexivity. }
  rewrite Hg. cbn [opt_float_truthy andb].
  apply nominatim_unusable. intros q. apply Hu.
Qed.

Lemma X3_witness :
  result (geocode_address offline_world (Some rio_address))
  = Ret (None, None).
Proof.
  apply X3_outage_gives_no_coordinates. intros r. cbn.
  destruct (pystr_eqb _ _); exact I.
Defined.

Lemma google_calls_configured w address key :
  configured w key ->
  calls (_geocode_with_google w address) = [google_request address key].
Proof.
  intros (Hk & Ht & Hp). unfold _geocode_with_google.
  rewrite Hk, (str_truthy_true _ Ht), (pystr_eqb_neq _ _ Hp).
  cbn [negb orb]. rewrite calls_try_except by (repeat constructor).
  rewrite calls_bind_silent; [reflexivity|].
  intro response. unfold raise_for_status, json, google_not_found. silent.
Qed.

(** X4. With a usable key, when the request to the primary provider
    fails, comes back with an error status or is not JSON,
    [geocode_address] makes that one request and then does what the
    fallback path does: it returns the fallback's result and makes
    the fallback's calls after its own. *)
Theorem X4_primary_failure_falls_back w address key :
  address <> [] ->
  configured w key ->
  unusable (network w (google_request address key)) ->
  result (geocode_address w (Some address))
  = result (_geocode_with_nominatim w address)
  /\ calls (geocode_address w (Some address))
     = google_request address key :: calls (_geocode_with_nominatim w address).
Proof.
  intros Ha Hc Hu.
  pose proof (google_calls_configured w address key Hc) as Hcalls.
  destruct Hc as (Hk & _ & _).
  pose proof (google_unusable w address key Hk Hu) as Hres.
  unfold geocode_address. rewrite (str_truthy_true _ Ha). cbn [negb].
  rewrite result_bind, calls_bind, Hres, Hcalls. cbn [opt_float_truthy andb].
  split; reflexivity.
Qed.

Lemma X4_witness :
  result (geocode_address google_down_world (Some rio_address))
  = result (_geocode_with_nominatim google_down_world rio_address)
  /\ calls (geocode_address google_down_world (Some rio_address))
     = google_request rio_address test_key
       :: calls (_geocode_with_nominatim google_down_world rio_address).
Proof.
  apply X4_primary_failure_falls_back.
  - discriminate.
  - repeat split; discriminate.
  - exact I.
Defined.

Lemma nominatim_accepts w address q data lat lon :
  simplify_address w address = Some q ->
  answers w (nominatim_request q) data ->
  first_result (runtime w) data lat lon ->
  accepted lat lon = true ->
  _geocode_with_nominatim w address
  = (Ret (Some lat, Some lon), [nominatim_request q]).
Proof.
  intros Hq Hn (r & rest & vlat & vlon & -> & Hlat & Hflat & Hlon & Hflon) Hacc.
  unfold answers in *.
  unfold _geocode_with_nominatim, requests_get.
  py_run. reflexivity.
Qed.

(** X5. When the primary path yields nothing and the secondary
    provider answers the simplified query with a first result within
    the geographic bounds and with neither coordinate zero,
    [geocode_address] returns that pair, and the request to the
    secondary provider is the last call it makes. *)
Theorem X5_fallback_coordinate_returned w address q data lat lon :
  result (_geocode_with_google w address) = Ret (None, None) ->
  simplify_address w address = Some q ->
  answers w (nominatim_request q) data ->
  first_result (runtime w) data lat lon ->
  in_range lat lon = true ->
  float_truthy lat = true -> float_truthy lon = true ->
  result (geocode_address w (Some address)) = Ret (Some lat, Some lon)
  /\ calls (geocode_address w (Some address))
     = calls (_geocode_with_google w address) ++ [nominatim_request q].
Proof.
  intros Hg Hq Hn Hf Hr Hlat Hlon.
  assert (Hacc : accepted lat lon = true)
    by (unfold accepted; rewrite Hlat, Hlon, Hr; reflexivity).
  pose proof (nominatim_accepts w address q data lat lon Hq Hn Hf Hacc) as Hnom.
  unfold geocode_address.
  destruct address as [|c address].
  - discriminate Hq.
  - cbn [str_truthy negb].
    rewrite result_bind, calls_bind, Hg. cbn [opt_float_truthy andb].
    rewrite Hnom. split; reflexivity.
Qed.

Lemma X5_witness :
  result (geocode_address fallback_world (Some rio_address))
  = Ret (Some (-22.90625)%float, Some (-43.171875)%float)
  /\ calls (geocode_address fallback_world (Some rio_address))
     = calls (_geocode_with_google fallback_world rio_address)
       ++ [nominatim_request rio_query].
Proof.
  apply (X5_fallback_coordinate_returned
           fallback_world rio_address rio_query
           (nominatim_body [(u "lat", PStr (u "-22.90625"));
                            (u "lon", PStr (u "-43.171875"))])).
  - reflexivity.
  - vm_compute. reflexivity.
  - reflexivity.
  - unfold first_result, nominatim_body. repeat eexists.
  - reflexivity.
  - reflexivity.
  - reflexivity.
Defined.

(** X6. The outbound calls of [geocode_address] are at most two: at
    most one request to the primary provider, for the address as given
    and with the key of the environment, followed by at most one
    request to the secondary provider, for the simplified address. *)
Theorem X6_calls_are_google_then_nominatim w address_full :
  exists g n,
    calls (geocode_address w address_full) = g ++ n
    /\ (g = []
        \/ exists address key,
            address_full = Some address
            /\ getenv w (u "GOOGLE_GEOCODING_API_KEY") = Some key
            /\ g = [google_request address key])
    /\ (n = []
        \/ exists address q,
            address_full = Some address
            /\ simplify_address w address = Some q
            /\ n = [nominatim_request q]).
Proof.
  destruct address_full as [address|];
    [|exists [], []; repeat split; auto].
  unfold geocode_address.
  destruct (negb _); [exists [], []; repeat split; auto|].
  rewrite calls_bind.
  exists (calls (_geocode_with_google w address)).
  assert (Hg : calls (_geocode_with_google w address) = []
               \/ exists address0 key,
                   Some address = Some address0
                   /\ getenv w (u "GOOGLE_GEOCODING_API_KEY") = Some key
                   /\ calls (_geocode_with_google w address)
                      = [google_request address0 key]).
  { unfold _geocode_with_google.
    destruct (getenv w _) as [key|] eqn:Hk; [|left; reflexivity].
    destruct (_ || _); [left; reflexivity|].
    right. exists address, key. repeat split.
    rewrite calls_try_except by (repeat constructor).
    rewrite calls_bind_silent; [reflexivity|].
    intro response. unfold raise_for_status, json, google_not_found. silent. }
  destruct (result (_geocode_with_google w address)) as [[lat lon]|e].
  - destruct (_ && _).
    + exists [].
      split; [reflexivity|]. split; [exact Hg | left; reflexivity].
    + exists (calls (_geocode_with_nominatim w address)).
      split; [reflexivity|]. split; [exact Hg|].
      rewrite nominatim_calls.
      destruct (simplify_address w address) as [q|] eqn:Hq; [|left; reflexivity].
      right. exists address, q. repeat split. exact Hq.
  - exists [].
    split; [symmetry; apply app_nil_r|]. split; [exact Hg | left; reflexivity].
Qed.

(* ================================================================== *)
(** * The simplified address *)
(* ================================================================== *)

(** ** What a match tells *)

Lemma star_inv p s k g :
  Re.star p s k = Some g ->
  exists n,
    (n <= List.length s)%nat
    /\ Forall (fun c => p c = true) (firstn n s)
    /\ k (skipn n s) = Some g.
Proof.
  induction s as [|c s IH]; cbn [Re.star].
  - intros H. exists 0%nat.
    split; [cbn; lia | split; [constructor | exact H]].
  - destruct (p c) eqn:Hc.
    + destruct (Re.star p s k) as [g'|] eqn:Hs.
      * intros [= ->]. destruct (IH eq_refl) as (n & Hn & Hall & Hk).
        exists (S n). cbn.
        split; [lia | split; [constructor; assumption | exact Hk]].
      * intros H. exists 0%nat. cbn.
        split; [lia | split; [constructor | exact H]].
    + intros H. exists 0%nat. cbn.
      split; [lia | split; [constructor | exact H]].
Qed.

Lemma search_inv r s g :
  Re.search r s = Some g ->
  exists t, Re.match_ r t = Some g.
Proof.
  induction s as [|c s IH]; cbn [Re.search].
  - destruct (Re.match_ r []) eqn:H; [|discriminate].
    intros [= <-]. exists []. exact H.
  - destruct (Re.match_ r (c :: s)) eqn:H.
    + intros [= <-]. exists (c :: s). exact H.
    + exact IH.
Qed.

(** The text of a group that [p+] matched at the head of [c :: s],
    leaving [skipn n s]. *)
Lemma group_text (c : N) s n :
  (n <= List.length s)%nat ->
  firstn (List.length (c :: s) - List.length (skipn n s)) (c :: s)
  = c :: firstn n s.
Proof.
  intros Hn. rewrite length_skipn. cbn [List.length].
  replace (S (List.length s) - (List.length s - n))%nat with (S n) by lia.
  reflexivity.
Qed.

Lemma number_match rt t g :
  Re.match_ (number_re rt) t = Some g ->
  exists c s,
    Re.group g 1 = c :: s
    /\ Forall (fun x => isdecimal rt x = true) (c :: s).
Proof.
  unfold Re.match_, number_re.
  change (Re.lit (u ",")) with (Re.Seq (Re.Chr (N.eqb 44)) Re.Eps).
  cbn [Re.run Re.Plus].
  destruct t as [|c0 t]; [discriminate|].
  destruct (44 =? c0)%N; [|discriminate].
  intros H. apply star_inv in H as (n1 & _ & _ & H).
  destruct (skipn n1 t) as [|c s]; [discriminate|].
  destruct (isdecimal rt c) eqn:Hc; [|discriminate].
  apply star_inv in H as (n2 & Hn2 & Hall & H).
  injection H as <-. cbn [Re.group Nat.eqb].
  exists c, (firstn n2 s). split; [exact (group_text c s n2 Hn2)|].
  constructor; assumption.
Qed.

Lemma city_state_match t g :
  Re.match_ city_state_re t = Some g ->
  (exists c s,
      Re.group g 1 = c :: s
      /\ Forall (fun x => Re.not_comma x = true) (c :: s))
  /\ exists x y,
      Re.group g 2 = [x; y]
      /\ Re.upper_AZ x = true /\ Re.upper_AZ y = true.
Proof.
  unfold Re.match_, city_state_re.
  change (Re.lit (u ",")) with (Re.Seq (Re.Chr (N.eqb 44)) Re.Eps).
  change (Re.lit (u "-")) with (Re.Seq (Re.Chr (N.eqb 45)) Re.Eps).
  cbn [Re.run Re.Plus].
  destruct t as [|c0 t]; [discriminate|].
  destruct (44 =? c0)%N; [|discriminate].
  intros H. apply star_inv in H as (n1 & _ & _ & H).
  destruct (skipn n1 t) as [|c s]; [discriminate|].
  destruct (Re.not_comma c) eqn:Hc; [|discriminate].
  apply star_inv in H as (n2 & Hn2 & Hall & H).
  apply star_inv in H as (n3 & _ & _ & H).
  destruct (skipn n3 (skipn n2 s)) as [|c1 s1]; [discriminate|].
  destruct (45 =? c1)%N; [|discriminate].
  apply star_inv in H as (n4 & _ & _ & H).
  destruct (skipn n4 s1) as [|x [|y s2]]; [discriminate| |].
  - destruct (Re.upper_AZ x); discriminate.
  - destruct (Re.upper_AZ x) eqn:Hx; [|discriminate].
    destruct (Re.upper_AZ y) eqn:Hy; [|discriminate].
    injection H as <-. cbn [Re.group Nat.eqb].
    split.
    + exists c, (firstn n2 s).
      split; [exact (group_text c s n2 Hn2) | constructor; assumption].
    + exists x, y. split; [|split; assumption].
      change (firstn (List.length (x :: y :: s2) - List.length s2)
                     (x :: y :: s2) = [x; y]).
      cbn [List.length].
      replace (S (S (List.length s2)) - List.length s2)%nat with 2%nat by lia.
      reflexivity.
Qed.

Lemma run_inv r :
  forall s g k g',
    Re.run r s g k = Some g' -> exists s1 g1, k s1 g1 = Some g'.
Proof.
  induction r as [|p|p|r1 IH1 r2 IH2|r1 IH1 r2 IH2|i r IH];
    intros s g k g'; cbn [Re.run].
  - intros H. exists s, g. exact H.
  - destruct s as [|c s]; [discriminate|].
    destruct (p c); [|discriminate]. intros H. exists s, g. exact H.
  - intros H. apply star_inv in H as (n & _ & _ & H).
    exists (skipn n s), g. exact H.
  - intros H. apply IH1 in H as (s1 & g1 & H). apply IH2 in H. exact H.
  - destruct (Re.run r1 s g k) as [g0|] eqn:H1.
    + intros [= <-]. apply IH1 in H1. exact H1.
    + apply IH2.
  - intros H. apply IH in H as (s1 & g1 & H). eexists _, _. exact H.
Qed.

Lemma street_match t g :
  Re.match_ street_re t = Some g ->
  Forall (fun x => Re.not_comma x = true) (Re.group g 1).
Proof.
  unfold Re.match_, street_re. cbn [Re.run].
  intros H. apply run_inv in H as (s1 & g1 & H).
  cbn [Re.run Re.Plus] in H.
  destruct s1 as [|c0 s1]; [discriminate|].
  destruct (isspace c0); [|discriminate].
  apply star_inv in H as (n1 & _ & _ & H).
  destruct (skipn n1 s1) as [|c s]; [discriminate|].
  destruct (Re.not_comma c) eqn:Hc; [|discriminate].
  apply star_inv in H as (n2 & Hn2 & Hall & H).
  injection H as <-. cbn [Re.group Nat.eqb].
  pose proof (group_text c s n2 Hn2) as Hg. cbn [List.length] in Hg.
  first [rewrite Hg | change (Forall (fun x => Re.not_comma x = true)
       (firstn (S (List.length s) - List.length (skipn n2 s)) (c :: s))); rewrite Hg].
  constructor; assumption.
Qed.

Lemma Forall_lstrip (P : N -> Prop) s : Forall P s -> Forall P (lstrip s).
Proof.
  induction 1 as [|c s Hc Hs IH]; cbn; [constructor|].
  destruct (isspace c); [exact IH | constructor; assumption].
Qed.

Lemma Forall_strip (P : N -> Prop) s : Forall P s -> Forall P (strip s).
Proof.
  intros H. unfold strip.
  apply Forall_rev, Forall_lstrip, Forall_rev, Forall_lstrip, H.
Qed.

Lemma split_head_no_sep sep s :
  Forall (fun x => negb (x =? sep)%N = true) (split_head sep s).
Proof.
  induction s as [|c s IH]; cbn; [constructor|].
  destruct (c =? sep)%N eqn:Hc; [constructor|].
  constructor; [rewrite Hc; reflexivity | exact IH].
Qed.

Lemma street_no_comma address :
  Forall (fun x => Re.not_comma x = true) (extract_street address).
Proof.
  unfold extract_street.
  destruct (Re.match_ street_re address) as [g|] eqn:H.
  - apply Forall_strip, (street_match _ _ H).
  - apply Forall_strip. exact (split_head_no_sep Re.comma address).
Qed.

Lemma upper_not_space c : Re.upper_AZ c = true -> isspace c = false.
Proof.
  unfold Re.upper_AZ, isspace. intros H.
  apply andb_prop in H as [H1 H2].
  apply N.leb_le in H1. apply N.leb_le in H2.
  repeat match goal with
         | |- context [(?a <=? ?b)%N] =>
           destruct (N.leb_spec a b); try lia
         | |- context [(?a =? ?b)%N] =>
           destruct (N.eqb_spec a b); try lia
         end.
Qed.

Lemma strip_state x y :
  Re.upper_AZ x = true -> Re.upper_AZ y = true -> strip [x; y] = [x; y].
Proof.
  intros Hx Hy. apply upper_not_space in Hx. apply upper_not_space in Hy.
  unfold strip. cbn. rewrite Hx. cbn. rewrite Hy. reflexivity.
Qed.

(** The number, when there is one, is a non-empty run of digits. *)
Lemma number_shape w address :
  match extract_number w address with
  | Some n => n <> [] /\ Forall (fun x => isdecimal (runtime w) x = true) n
  | None => True
  end.
Proof.
  unfold extract_number.
  destruct (Re.search _ address) as [g|] eqn:H; [|exact I].
  apply search_inv in H as (t & H).
  apply number_match in H as (c & s & -> & Hall).
  split; [discriminate | exact Hall].
Qed.

(** City and state come together; the state is two capital letters,
    the city has no comma. *)
Lemma city_state_shape address :
  match extract_city_state address with
  | (Some city, Some state) =>
    Forall (fun x => Re.not_comma x = true) city
    /\ exists x y,
        state = [x; y] /\ Re.upper_AZ x = true /\ Re.upper_AZ y = true
  | (None, None) => True
  | _ => False
  end.
Proof.
  unfold extract_city_state.
  destruct (Re.search _ address) as [g|] eqn:H; [|exact I].
  apply search_inv in H as (t & H).
  apply city_state_match in H as ((c & s & Hc & Hall) & x & y & -> & Hx & Hy).
  split.
  - apply Forall_strip. rewrite Hc. exact Hall.
  - exists x, y. split; [apply strip_state; assumption | split; assumption].
Qed.

Lemma not_comma_neq zs :
  Forall (fun x => Re.not_comma x = true) zs ->
  Forall (fun x => x <> Re.comma) zs.
Proof.
  apply Forall_impl. intros x. unfold Re.not_comma.
  destruct (N.eqb_spec x Re.comma); [discriminate | auto].
Qed.

(** X7. A query that lines 85-120 of [_geocode_with_nominatim] build
    is
    "<street>, <city>, <XX>, Brasil" or
    "<street>, <number>, <city>, <XX>, Brasil": the street and the city
    are not empty and hold no comma, the state is two capital letters
    and the number, when there is one, is a non-empty run of digits.
    The state is never missing: the pattern finds the city and the
    state together. *)
Theorem X7_simplified_query_shape w address q :
  simplify_address w address = Some q ->
  exists street city x y,
    street <> [] /\ comma_free street
    /\ city <> [] /\ comma_free city
    /\ Re.upper_AZ x = true /\ Re.upper_AZ y = true
    /\ (q = street ++ u ", " ++ city ++ u ", " ++ [x; y] ++ u ", Brasil"
        \/ exists number,
            number <> []
            /\ Forall (fun c => isdecimal (runtime w) c = true) number
            /\ q = street ++ u ", " ++ number ++ u ", " ++ city
                   ++ u ", " ++ [x; y] ++ u ", Brasil").
Proof.
  unfold simplify_address. intros Hq.
  pose proof (city_state_shape address) as Hcs.
  pose proof (number_shape w address) as Hn.
  pose proof (street_no_comma address) as Hs.
  destruct (extract_city_state address) as [[city|] [state|]];
    try contradiction.
  - destruct Hcs as (Hcity & x & y & -> & Hx & Hy).
    destruct (extract_street address) as [|c street] eqn:Hstreet;
      [discriminate|].
    destruct city as [|c' city]; [discriminate|].
    exists (c :: street), (c' :: city), x, y.
    split; [discriminate|]. split; [apply not_comma_neq; exact Hs|].
    split; [discriminate|]. split; [apply not_comma_neq; exact Hcity|].
    split; [exact Hx|]. split; [exact Hy|].
    destruct (extract_number w address) as [[|d number]|];
      cbn [str_truthy opt_truthy andb negb fmt] in Hq.
    + destruct Hn as [Hn _]. congruence.
    + destruct Hn as [_ Hn]. injection Hq as <-. right.
      exists (d :: number).
      split; [discriminate|]. split; [exact Hn | reflexivity].
    + injection Hq as <-. left. reflexivity.
  - rewrite andb_false_r in Hq. discriminate.
Qed.

Lemma X7_witness :
  exists street city x y,
    street <> [] /\ comma_free street
    /\ city <> [] /\ comma_free city
    /\ Re.upper_AZ x = true /\ Re.upper_AZ y = true
    /\ (rio_query
        = street ++ u ", " ++ city ++ u ", " ++ [x; y] ++ u ", Brasil"
        \/ exists number,
            number <> []
            /\ Forall (fun c => isdecimal (runtime rio_world) c = true) number
            /\ rio_query
               = street ++ u ", " ++ number ++ u ", " ++ city
                        ++ u ", " ++ [x; y] ++ u ", Brasil").
Proof.
  apply (X7_simplified_query_shape rio_world rio_address).
  vm_compute. reflexivity.
Defined.

(** ** What a pattern does on an address of the documented form *)

(** A greedy repetition over a run that ends where the class ends, when
    what follows matches right away. *)
Lemma star_take p xs r k g :
  Forall (fun c => p c = true) xs ->
  match r with [] => True | c :: _ => p c = false end ->
  k r = Some g ->
  Re.star p (xs ++ r) k = Some g.
Proof.
  intros Hxs Hr Hk. induction Hxs as [|x xs Hx _ IH]; cbn [app Re.star].
  - destruct r as [|c r]; [exact Hk|]. cbn [Re.star]. rewrite Hr. exact Hk.
  - rewrite Hx, IH. reflexivity.
Qed.

Lemma star_none p s k :
  (forall zs ws, s = zs ++ ws -> Forall (fun c => p c = true) zs ->
                 k ws = None) ->
  Re.star p s k = None.
Proof.
  induction s as [|c s IH]; intros H; cbn [Re.star].
  - apply (H [] []); [reflexivity | constructor].
  - assert (Hk : k (c :: s) = None)
      by (apply (H [] (c :: s)); [reflexivity | constructor]).
    destruct (p c) eqn:Hc; [|exact Hk].
    rewrite IH; [exact Hk|].
    intros zs ws -> Hzs. apply (H (c :: zs) ws); [reflexivity|].
    constructor; assumption.
Qed.

(** A greedy repetition gives back what it took until what follows
    matches. *)
Lemma star_back p xs ys k g :
  Forall (fun c => p c = true) xs ->
  k ys = Some g ->
  (forall zs ws, ys = zs ++ ws -> zs <> [] ->
                 Forall (fun c => p c = true) zs -> k ws = None) ->
  Re.star p (xs ++ ys) k = Some g.
Proof.
  intros Hxs Hk Hfail. induction Hxs as [|x xs Hx _ IH]; cbn [app].
  - destruct ys as [|c ys]; cbn [Re.star]; [exact Hk|].
    destruct (p c) eqn:Hc; [|exact Hk].
    rewrite star_none; [exact Hk|].
    intros zs ws -> Hzs. apply (Hfail (c :: zs) ws); [reflexivity | discriminate|].
    constructor; assumption.
  - cbn [Re.star]. rewrite Hx, IH. reflexivity.
Qed.

Lemma firstn_matched (xs r : pystr) :
  firstn (List.length (xs ++ r) - List.length r) (xs ++ r) = xs.
Proof.
  rewrite length_app.
  replace (List.length xs + List.length r - List.length r)%nat
    with (List.length xs + 0)%nat by lia.
  rewrite firstn_app_2. cbn. apply app_nil_r.
Qed.

Lemma street_type_matched tok tail k g :
  In tok street_types ->
  k tail [] = Some g ->
  Re.run (Re.alts [Re.lit_i (u "Rua"); Re.lit_i (u "Av.");
                   Re.lit_i (u "Avenida"); Re.lit_i (u "Travessa");
                   Re.lit_i (u "Alameda"); Re.lit_i (u "Praça")])
         (tok ++ tail) [] k
  = Some g.
Proof.
  intros Htok Hk.
  repeat (destruct Htok as [<- | Htok];
          [vm_compute; rewrite Hk; reflexivity|]).
  contradiction.
Qed.

Lemma comma_free_not_comma s :
  comma_free s -> Forall (fun x => Re.not_comma x = true) s.
Proof.
  apply Forall_impl. intros x Hx. unfold Re.not_comma.
  destruct (N.eqb_spec x Re.comma); [contradiction | reflexivity].
Qed.

Lemma digit_isdecimal rt x : (48 <= x <= 57)%N -> isdecimal rt x = true.
Proof.
  intros [H1 H2]. unfold isdecimal.
  destruct (N.ltb_spec x 128); [|lia].
  apply andb_true_intro. split; apply N.leb_le; assumption.
Qed.

Lemma digit_not_space x : (48 <= x <= 57)%N -> isspace x = false.
Proof.
  intros [H1 H2]. unfold isspace.
  repeat match goal with
         | |- context [(?a <=? ?b)%N] =>
           destruct (N.leb_spec a b); try lia
         | |- context [(?a =? ?b)%N] =>
           destruct (N.eqb_spec a b); try lia
         end.
Qed.

Lemma upper_not_dash c : Re.upper_AZ c = true -> (45 =? c)%N = false.
Proof.
  unfold Re.upper_AZ. intros H. apply andb_prop in H as [H1 H2].
  apply N.leb_le in H1. destruct (N.eqb_spec 45 c); [lia | reflexivity].
Qed.

Lemma space_not_comma c : isspace c = true -> c <> Re.comma.
Proof. intros H ->. discriminate H. Qed.

Lemma street_of_documented tok c name tail :
  In tok street_types ->
  isspace c = false ->
  comma_free (c :: name) ->
  Re.match_ street_re (tok ++ 32%N :: (c :: name) ++ 44%N :: tail)
  = Some [(1%nat, c :: name)].
Proof.
  intros Htok Hc Hname. apply comma_free_not_comma in Hname.
  unfold Re.match_, street_re. cbn [Re.run].
  apply street_type_matched; [exact Htok|].
  cbn [Re.run Re.Plus]. change (isspace 32) with true. cbv iota.
  apply (star_take isspace []); [constructor | exact Hc |].
  cbn [app Re.run]. inversion Hname as [|? ? Hnc Hrest]; subst.
  rewrite Hnc.
  apply star_take; [exact Hrest | reflexivity |].
  exact (f_equal (fun t => Some [(1%nat, t)])
                 (firstn_matched (c :: name) (44%N :: tail))).
Qed.

Lemma search_skip r pre s :
  (forall c t, c <> Re.comma -> Re.match_ r (c :: t) = None) ->
  comma_free pre ->
  Re.search r (pre ++ s) = Re.search r s.
Proof.
  intros Hr Hpre. induction Hpre as [|c pre Hc _ IH]; [reflexivity|].
  cbn [app Re.search]. rewrite (Hr c _ Hc). exact IH.
Qed.

Lemma search_here r s g :
  Re.match_ r s = Some g -> Re.search r s = Some g.
Proof. intros H. destruct s; cbn [Re.search]; rewrite H; reflexivity. Qed.

Lemma search_next r c s :
  Re.match_ r (c :: s) = None -> Re.search r (c :: s) = Re.search r s.
Proof. intros H. cbn [Re.search]. rewrite H. reflexivity. Qed.

Lemma number_needs_comma rt c t :
  c <> Re.comma -> Re.match_ (number_re rt) (c :: t) = None.
Proof.
  intros Hc. unfold Re.match_, number_re.
  change (Re.lit (u ",")) with (Re.Seq (Re.Chr (N.eqb 44)) Re.Eps).
  cbn [Re.run]. destruct (N.eqb_spec 44 c); [|reflexivity].
  exfalso. apply Hc. symmetry. assumption.
Qed.

Lemma city_state_needs_comma c t :
  c <> Re.comma -> Re.match_ city_state_re (c :: t) = None.
Proof.
  intros Hc. unfold Re.match_, city_state_re.
  change (Re.lit (u ",")) with (Re.Seq (Re.Chr (N.eqb 44)) Re.Eps).
  cbn [Re.run]. destruct (N.eqb_spec 44 c); [|reflexivity].
  exfalso. apply Hc. symmetry. assumption.
Qed.

Lemma number_of_documented rt pre d ds tail :
  comma_free pre ->
  ascii_digits (d :: ds) ->
  Re.search (number_re rt) (pre ++ 44%N :: 32%N :: (d :: ds) ++ 44%N :: tail)
  = Some [(1%nat, d :: ds)].
Proof.
  intros Hpre Hds.
  rewrite search_skip; [|apply number_needs_comma | exact Hpre].
  apply search_here.
  inversion Hds as [|? ? Hd Hrest]; subst.
  unfold Re.match_, number_re.
  change (Re.lit (u ",")) with (Re.Seq (Re.Chr (N.eqb 44)) Re.Eps).
  cbn [Re.run Re.Plus]. change (44 =? 44)%N with true. cbv iota.
  apply (star_take isspace [32%N]);
    [repeat constructor | apply digit_not_space; exact Hd |].
  cbn [app Re.run]. rewrite (digit_isdecimal rt d Hd).
  apply star_take.
  - revert Hrest. apply Forall_impl. intros x. apply digit_isdecimal.
  - reflexivity.
  - exact (f_equal (fun t => Some [(1%nat, t)])
                   (firstn_matched (d :: ds) (44%N :: tail))).
Qed.

Lemma dashless_segment seg tail :
  comma_free seg -> dash_free seg -> dashless (seg ++ 44%N :: tail) = true.
Proof.
  intros Hc Hd. induction seg as [|c seg IH]; [reflexivity|].
  inversion Hc; inversion Hd; subst. cbn [app dashless].
  destruct (N.eqb_spec c 44); [reflexivity|].
  destruct (N.eqb_spec c 45); [contradiction|]. apply IH; assumption.
Qed.

Lemma dashless_skip zs ws :
  dashless (zs ++ ws) = true ->
  Forall (fun x => x <> Re.comma) zs ->
  dashless ws = true.
Proof.
  intros H Hzs. induction Hzs as [|z zs Hz _ IH]; [exact H|].
  cbn [app dashless] in H.
  destruct (N.eqb_spec z 44); [contradiction|].
  destruct (z =? 45)%N; [discriminate|]. apply IH, H.
Qed.

Lemma dashless_head c s : dashless (c :: s) = true -> (45 =? c)%N = false.
Proof.
  cbn [dashless]. destruct (N.eqb_spec c 44) as [->|]; [reflexivity|].
  destruct (N.eqb_spec c 45) as [->|]; [discriminate|].
  intros _. destruct (N.eqb_spec 45 c); [congruence | reflexivity].
Qed.

Lemma space_neq zs :
  Forall (fun x => isspace x = true) zs ->
  Forall (fun x => x <> Re.comma) zs.
Proof. apply Forall_impl. intros x. apply space_not_comma. Qed.

(** With no hyphen before the next comma, the pattern of city and
    state does not match at this comma. *)
Lemma city_state_fails s :
  dashless s = true -> Re.match_ city_state_re (44%N :: s) = None.
Proof.
  intros Hs. unfold Re.match_, city_state_re.
  change (Re.lit (u ",")) with (Re.Seq (Re.Chr (N.eqb 44)) Re.Eps).
  change (Re.lit (u "-")) with (Re.Seq (Re.Chr (N.eqb 45)) Re.Eps).
  cbn [Re.run Re.Plus]. change (44 =? 44)%N with true. cbv iota.
  apply star_none. intros zs1 s1 -> Hzs1.
  apply space_neq in Hzs1. apply (dashless_skip _ _ Hs) in Hzs1 as Hs1.
  destruct s1 as [|c s2]; [reflexivity|].
  destruct (Re.not_comma c) eqn:Hc; [|reflexivity].
  assert (Hs2 : dashless s2 = true).
  { apply (dashless_skip [c] s2 Hs1), not_comma_neq. repeat constructor.
    exact Hc. }
  apply star_none. intros zs2 s3 -> Hzs2.
  apply not_comma_neq in Hzs2. apply (dashless_skip _ _ Hs2) in Hzs2 as Hs3.
  apply star_none. intros zs3 s4 -> Hzs3.
  apply space_neq in Hzs3. apply (dashless_skip _ _ Hs3) in Hzs3 as Hs4.
  destruct s4 as [|c4 s5]; [reflexivity|].
  rewrite (dashless_head _ _ Hs4). reflexivity.
Qed.

Lemma city_state_here c city x y rest :
  isspace c = false ->
  comma_free (c :: city) ->
  Re.upper_AZ x = true -> Re.upper_AZ y = true ->
  ends_field rest ->
  Re.match_ city_state_re
            (44%N :: 32%N :: (c :: city) ++ [32; 45; 32; x; y]%N ++ rest)
  = Some [(2%nat, [x; y]); (1%nat, (c :: city) ++ [32%N])].
Proof.
  intros Hc Hcity Hx Hy Hrest. apply comma_free_not_comma in Hcity.
  inversion Hcity as [|? ? Hnc Hcity']; subst.
  unfold Re.match_, city_state_re.
  change (Re.lit (u ",")) with (Re.Seq (Re.Chr (N.eqb 44)) Re.Eps).
  change (Re.lit (u "-")) with (Re.Seq (Re.Chr (N.eqb 45)) Re.Eps).
  cbn [Re.run Re.Plus]. change (44 =? 44)%N with true. cbv iota.
  apply (star_take isspace [32%N]); [repeat constructor | exact Hc |].
  cbn [app Re.run]. rewrite Hnc.
  change (city ++ 32 :: 45 :: 32 :: x :: y :: rest)%N
    with (city ++ [32%N] ++ 45%N :: 32%N :: x :: y :: rest).
  rewrite app_assoc.
  apply star_back.
  - apply Forall_app. split; [exact Hcity' | repeat constructor].
  - apply (star_take isspace []); [constructor | reflexivity |].
    cbv beta iota. change (45 =? 45)%N with true. cbv iota.
    apply (star_take isspace [32%N]);
      [repeat constructor | apply upper_not_space; exact Hx |].
    cbv beta iota. rewrite Hx, Hy.
    refine (f_equal2 (fun a b => Some [(2%nat, a); (1%nat, b)]) _ _).
    + exact (firstn_matched [x; y] rest).
    + exact (firstn_matched ((c :: city) ++ [32%N])
                            (45%N :: 32%N :: x :: y :: rest)).
  - intros zs ws Hsplit Hne Hzs.
    pose proof (upper_not_space x Hx) as Hsx.
    pose proof (upper_not_space y Hy) as Hsy.
    pose proof (upper_not_dash x Hx) as Hdx.
    pose proof (upper_not_dash y Hy) as Hdy.
    destruct zs as [|z1 [|z2 [|z3 [|z4 [|z5 zs]]]]];
      [contradiction | | | | |];
      cbn [app] in Hsplit; inversion Hsplit; subst; clear Hsplit.
    + cbn [Re.star]. change (isspace 32) with true.
      rewrite Hsx. cbv beta iota. rewrite Hdx. reflexivity.
    + cbn [Re.star].
      rewrite Hsx. cbv beta iota. rewrite Hdx. reflexivity.
    + cbn [Re.star].
      rewrite Hsy. cbv beta iota. rewrite Hdy. reflexivity.
    + destruct Hrest as [-> | [r ->]]; reflexivity.
    + destruct Hrest as [Hr | [r Hr]]; [discriminate|].
      injection Hr as -> _.
      inversion Hzs as [|? ? _ Ha]; inversion Ha as [|? ? _ Hb];
        inversion Hb as [|? ? _ Hd]; inversion Hd as [|? ? _ He];
        inversion He as [|? ? Hf _]. discriminate Hf.
Qed.

Lemma city_state_of_documented pre seg1 seg2 c city x y rest :
  comma_free pre ->
  comma_free seg1 -> dash_free seg1 ->
  comma_free seg2 -> dash_free seg2 ->
  isspace c = false ->
  comma_free (c :: city) ->
  Re.upper_AZ x = true -> Re.upper_AZ y = true ->
  ends_field rest ->
  Re.search city_state_re
            (pre ++ 44%N :: seg1 ++ 44%N :: seg2
                 ++ 44%N :: 32%N :: (c :: city) ++ [32; 45; 32; x; y]%N ++ rest)
  = Some [(2%nat, [x; y]); (1%nat, (c :: city) ++ [32%N])].
Proof.
  intros Hpre Hc1 Hd1 Hc2 Hd2 Hc Hcity Hx Hy Hrest.
  rewrite search_skip; [|apply city_state_needs_comma | exact Hpre].
  rewrite search_next
    by (apply city_state_fails, dashless_segment; assumption).
  rewrite search_skip; [|apply city_state_needs_comma | exact Hc1].
  rewrite search_next
    by (apply city_state_fails, dashless_segment; assumption).
  rewrite search_skip; [|apply city_state_needs_comma | exact Hc2].
  apply search_here, city_state_here; assumption.
Qed.

Lemma lstrip_length s : (List.length (lstrip s) <= List.length s)%nat.
Proof.
  induction s as [|c s IH]; cbn; [lia|].
  destruct (isspace c); cbn; lia.
Qed.

Lemma stripped_head c s : strip (c :: s) = c :: s -> isspace c = false.
Proof.
  intros H. destruct (isspace c) eqn:Hc; [exfalso | reflexivity].
  apply (f_equal (@List.length N)) in H. revert H.
  unfold strip. cbn [lstrip]. rewrite Hc.
  rewrite length_rev.
  pose proof (lstrip_length (rev (lstrip s))) as H1.
  rewrite length_rev in H1.
  pose proof (lstrip_length s) as H2. cbn [List.length]. lia.
Qed.

Lemma strip_trailing_space c s :
  isspace c = false -> strip ((c :: s) ++ [32%N]) = strip (c :: s).
Proof.
  intros Hc. unfold strip. cbn [app lstrip]. rewrite Hc.
  change (c :: s ++ [32%N]) with ((c :: s) ++ [32%N]).
  rewrite rev_unit. cbn [lstrip]. change (isspace 32) with true. cbv iota.
  reflexivity.
Qed.

Lemma street_types_comma_free tok : In tok street_types -> comma_free tok.
Proof.
  intros H.
  repeat (destruct H as [<- | H];
          [vm_compute; repeat constructor; discriminate|]).
  contradiction.
Qed.

Lemma digits_comma_free s : ascii_digits s -> comma_free s.
Proof.
  apply Forall_impl. intros x [H1 H2] ->. vm_compute in H1. apply H1.
  reflexivity.
Qed.

Lemma digits_dash_free s : ascii_digits s -> dash_free s.
Proof.
  apply Forall_impl. intros x [H1 H2] ->. vm_compute in H1. apply H1.
  reflexivity.
Qed.

Lemma documented_split tok name number bairro city x y rest :
  documented_address tok name number bairro city x y rest
  = (tok ++ 32%N :: name)
      ++ 44%N :: (32%N :: number) ++ 44%N :: (32%N :: bairro)
      ++ 44%N :: 32%N :: city ++ [32; 45; 32; x; y]%N ++ rest.
Proof.
  unfold documented_address.
  change (u " ") with [32%N]. change (u ", ") with [44%N; 32%N].
  change (u " - ") with [32%N; 45%N; 32%N].
  cbn [app]. rewrite <- app_assoc. reflexivity.
Qed.

(** The characters of a literal, one by one. *)
Ltac chars :=
  match goal with
  | |- Forall _ ?s => let l := eval vm_compute in s in change s with l
  end;
  repeat (constructor; [first [discriminate | lia] |]);
  constructor.

(** X8. An address in the format that the docstring of
    [geocode_address] expects,
    "<type> <name>, <number>, <neighbourhood>, <city> - <XX>" followed
    by nothing or by a comma and more, is simplified to
    "<name>, <number>, <city>, <XX>, Brasil": the street type, the
    neighbourhood and what follows the state are dropped. This holds
    for each of the six street types, a name and a city that hold no
    comma and no space at either end, a number of ASCII digits, and a
    neighbourhood with no comma and no hyphen. *)
Theorem X8_documented_address_simplified
        w tok name number bairro city x y rest :
  In tok street_types ->
  name <> [] -> strip name = name -> comma_free name ->
  number <> [] -> ascii_digits number ->
  comma_free bairro -> dash_free bairro ->
  city <> [] -> strip city = city -> comma_free city ->
  Re.upper_AZ x = true -> Re.upper_AZ y = true ->
  ends_field rest ->
  simplify_address w
    (documented_address tok name number bairro city x y rest)
  = Some (name ++ u ", " ++ number ++ u ", " ++ city ++ u ", "
               ++ [x; y] ++ u ", Brasil").
Proof.
  intros Htok Hn0 Hns Hnc Hd0 Hds Hbc Hbd Hc0 Hcs Hcc Hx Hy Hrest.
  destruct name as [|c name]; [contradiction|].
  destruct number as [|d ds]; [contradiction|].
  destruct city as [|c' city]; [contradiction|].
  pose proof (stripped_head _ _ Hns) as Hc.
  pose proof (stripped_head _ _ Hcs) as Hc'.
  set (a := documented_address tok (c :: name) (d :: ds) bairro (c' :: city)
                               x y rest).
  assert (Hstreet : extract_street a = c :: name).
  { unfold extract_street.
    rewrite (street_of_documented tok c name
               (32%N :: (d :: ds) ++ u ", " ++ bairro ++ u ", "
                     ++ (c' :: city) ++ u " - " ++ [x; y] ++ rest)
               Htok Hc Hnc : Re.match_ street_re a = _).
    exact Hns. }
  assert (Hpre : comma_free (tok ++ 32%N :: c :: name)).
  { apply Forall_app. split; [apply street_types_comma_free, Htok|].
    constructor; [discriminate | exact Hnc]. }
  assert (Hnumber : extract_number w a = Some (d :: ds)).
  { unfold extract_number. subst a. rewrite documented_split.
    rewrite (number_of_documented (runtime w) _ d ds _ Hpre Hds
             : Re.search _ (_ ++ 44%N :: (32%N :: d :: ds) ++ _) = _).
    reflexivity. }
  assert (Hcity : extract_city_state a = (Some (c' :: city), Some [x; y])).
  { unfold extract_city_state. subst a. rewrite documented_split.
    rewrite (city_state_of_documented
               (tok ++ 32%N :: c :: name) (32%N :: d :: ds) (32%N :: bairro)
               c' city x y rest).
    - cbn [Re.group Nat.eqb].
      rewrite (strip_trailing_space c' city Hc'), Hcs.
      rewrite (strip_state x y Hx Hy). reflexivity.
    - exact Hpre.
    - constructor; [discriminate | apply digits_comma_free, Hds].
    - constructor; [discriminate | apply digits_dash_free, Hds].
    - constructor; [discriminate | exact Hbc].
    - constructor; [discriminate | exact Hbd].
    - exact Hc'.
    - exact Hcc.
    - exact Hx.
    - exact Hy.
    - exact Hrest. }
  unfold simplify_address. rewrite Hstreet, Hnumber, Hcity. reflexivity.
Qed.

Lemma X8_witness :
  simplify_address rio_world
    (documented_address (u "Av.") (u "Atlântica") (u "1702") (u "Copacabana")
                        (u "Rio de Janeiro") 82 74 (u ", CEP 22021-001"))
  = Some (u "Atlântica" ++ u ", " ++ u "1702" ++ u ", " ++ u "Rio de Janeiro"
            ++ u ", " ++ [82; 74]%N ++ u ", Brasil").
Proof.
  apply X8_documented_address_simplified.
  - right. left. reflexivity.
  - discriminate.
  - vm_compute. reflexivity.
  - unfold comma_free. chars.
  - discriminate.
  - unfold ascii_digits. chars.
  - unfold comma_free. chars.
  - unfold dash_free. chars.
  - discriminate.
  - vm_compute. reflexivity.
  - unfold comma_free. chars.
  - reflexivity.
  - reflexivity.
  - right. exists (u " CEP 22021-001"). vm_compute. reflexivity.
Defined.

(* ================================================================== *)
(** * The notifier: the other two bodies *)
(* ================================================================== *)

Import Models EmailService EmailSpec EmailBodies.

Lemma cancellation_body_split w event attendee reason :
  html_content (cancellation_message w event attendee reason)
  = before_reason w event attendee
    ++ (if truthy reason
        then u "<p><strong>Motivo:</strong> " ++ str w reason ++ u "</p>"
        else [])
    ++ after_reason.
Proof.
  unfold cancellation_message, before_reason, after_reason.
  cbn [html_content].
  repeat rewrite <- app_assoc. reflexivity.
Qed.

(** X9. The HTML body of the cancellation notification is a fixed
    text around the reason: with the reason the empty string (the
    default) or None it is that text alone, with no paragraph for the
    reason; with a reason [c :: s] it has the paragraph
    [<p><strong>Motivo:</strong> ...</p>] with the reason verbatim at
    that place. Whatever the reason, the body includes the attendee's
    name and the event title. *)
Theorem X9_cancellation_body_reason w event attendee :
  exists before after,
    html_content (cancellation_message w event attendee (PStr []))
    = before ++ after
    /\ html_content (cancellation_message w event attendee PNone)
       = before ++ after
    /\ (forall c s,
           html_content
             (cancellation_message w event attendee (PStr (c :: s)))
           = before
             ++ (u "<p><strong>Motivo:</strong> " ++ (c :: s) ++ u "</p>")
             ++ after)
    /\ (forall reason,
           let body :=
               html_content (cancellation_message w event attendee reason) in
           includes (str w (name attendee)) body
           /\ includes (str w (title event)) body).
Proof.
  exists (before_reason w event attendee), after_reason.
  split; [|split; [|split]].
  - rewrite cancellation_body_split. reflexivity.
  - rewrite cancellation_body_split. reflexivity.
  - intros c s. rewrite cancellation_body_split. reflexivity.
  - intros reason body. subst body. rewrite cancellation_body_split.
    unfold before_reason. repeat rewrite <- app_assoc.
    split; includes.
Qed.

Lemma modification_body_split w event attendee :
  html_content (modification_message w event attendee)
  = before_modified_comments w event attendee
    ++ (u "<li>Comentários: " ++ str w (comments attendee) ++ u "</li>")
    ++ after_modified_comments.
Proof.
  unfold modification_message, before_modified_comments,
    after_modified_comments.
  cbn [html_content].
  change (u "                <li>Comentários: ")
    with (u "                " ++ u "<li>Comentários: ").
  repeat rewrite <- app_assoc. reflexivity.
Qed.

(** X10. The HTML body of the modification notification always has
    the list item of the comments, unlike the creation body: with the
    comments None the item reads "Comentários: None", with the empty
    string it is there and empty. The body includes the attendee's
    name, the event title and the adult and child counts. *)
Theorem X10_modification_body_always_lists_comments w event attendee :
  (forall v,
      includes (u "<li>Comentários: " ++ str w v ++ u "</li>")
               (html_content
                  (modification_message w event (set_comments attendee v))))
  /\ includes (u "<li>Comentários: None</li>")
              (html_content
                 (modification_message w event (set_comments attendee PNone)))
  /\ includes (u "<li>Comentários: </li>")
              (html_content
                 (modification_message w event
                                       (set_comments attendee (PStr []))))
  /\ (let body := html_content (modification_message w event attendee) in
      includes (str w (name attendee)) body
      /\ includes (str w (title event)) body
      /\ includes (str w (num_adults attendee)) body
      /\ includes (str w (num_children attendee)) body).
Proof.
  split; [|split; [|split]].
  - intros v. rewrite modification_body_split.
    eexists _, _. reflexivity.
  - rewrite modification_body_split. eexists _, _. reflexivity.
  - rewrite modification_body_split. eexists _, _. reflexivity.
  - intros body. subst body. rewrite modification_body_split.
    unfold before_modified_comments. repeat rewrite <- app_assoc.
    repeat split; includes.
Qed.

(* ================================================================== *)
(** * The routes: modifying and cancelling *)
(* ================================================================== *)

Import Attendees AttendeesSpec AttendeeRoutes RoutesSpec MoreExamples.

Lemma replace_first_split p a a' l :
  find p l = Some a ->
  exists l1 l2,
    l = l1 ++ a :: l2
    /\ replace_first p a' l = l1 ++ a' :: l2
    /\ Forall (fun x => p x = false) l1.
Proof.
  induction l as [|x l IH]; cbn [find replace_first]; [discriminate|].
  destruct (p x) eqn:Hx.
  - intros [= ->]. exists [], l. repeat split. constructor.
  - intros H. destruct (IH H) as (l1 & l2 & -> & Hr & Hall).
    exists (x :: l1), l2. cbn [app]. rewrite Hr.
    repeat split. constructor; assumption.
Qed.

Lemma replace_first_again p a' l :
  p a' = true ->
  replace_first p a' (replace_first p a' l) = replace_first p a' l.
Proof.
  intros Hp. induction l as [|x l IH]; cbn [replace_first]; [reflexivity|].
  destruct (p x) eqn:Hx; cbn [replace_first].
  - rewrite Hp. reflexivity.
  - rewrite Hx, IH. reflexivity.
Qed.

Lemma first_attendee_commit db event v a a' :
  first_attendee db event v = Some a ->
  same_rsvp a a' ->
  first_attendee (commit db event v a') event v = Some a'.
Proof.
  intros Ha [He Hw]. unfold first_attendee, commit. cbn [attendees].
  eapply find_replace_first; [exact Ha|].
  unfold first_attendee in Ha. apply find_some in Ha as [_ Ha].
  unfold is_rsvp in *. rewrite He, Hw. exact Ha.
Qed.

Lemma modify_rsvp_success db data db' body :
  modify_rsvp db data = Ret (db', (body, 200%Z)) ->
  exists d slug_v number_v event before,
    data = PDict d
    /\ get data (u "event_slug") PNone = Ret slug_v
    /\ get data (u "whatsapp_number") PNone = Ret number_v
    /\ truthy slug_v = true /\ truthy number_v = true
    /\ first_event db slug_v = Some event
    /\ allow_modifications event = true
    /\ first_attendee db event number_v = Some before
    /\ db' = commit db event number_v (modified d before)
    /\ body = modify_response (modified d before).
Proof.
  unfold modify_rsvp. destruct data as [| | | | | |d]; try discriminate.
  cbn [get rbind].
  set (slug_v := match dict_get d (u "event_slug") with
                 | Some x => x | None => PNone end).
  set (number_v := match dict_get d (u "whatsapp_number") with
                   | Some x => x | None => PNone end).
  destruct (truthy slug_v) eqn:Hts; [|discriminate].
  destruct (truthy number_v) eqn:Htn; [|discriminate].
  cbn [negb orb].
  destruct (first_event db slug_v) as [event|] eqn:He; [|discriminate].
  destruct (allow_modifications event) eqn:Hallow; [|discriminate].
  cbn [negb].
  destruct (first_attendee db event number_v) as [before|] eqn:Ha;
    [|discriminate].
  do 4 (rewrite update_field_dict; cbn [rbind]).
  intros [= <- <-].
  exists d, slug_v, number_v, event, before.
  repeat (split; [reflexivity || assumption|]).
  unfold modified, modify_response.
  destruct (dict_get d (u "name")), (dict_get d (u "num_adults")),
    (dict_get d (u "num_children")), (dict_get d (u "comments"));
    destruct before as [i e wn n na nc c s];
    cbn [status set_status set_name set_num_adults set_num_children
         set_comments id event_id whatsapp_number name num_adults
         num_children comments];
    destruct (eq_str s (u "cancelled")); split; reflexivity.
Qed.

Lemma cancel_rsvp_success db data db' body :
  cancel_rsvp db data = Ret (db', (body, 200%Z)) ->
  exists slug_v number_v event before,
    get data (u "event_slug") PNone = Ret slug_v
    /\ get data (u "whatsapp_number") PNone = Ret number_v
    /\ truthy slug_v = true /\ truthy number_v = true
    /\ first_event db slug_v = Some event
    /\ allow_cancellations event = true
    /\ first_attendee db event number_v = Some before
    /\ db' = commit db event number_v
                    (set_status before (PStr (u "cancelled"))).
Proof.
  unfold cancel_rsvp. destruct data as [| | | | | |d]; try discriminate.
  cbn [get rbind].
  set (slug_v := match dict_get d (u "event_slug") with
                 | Some x => x | None => PNone end).
  set (number_v := match dict_get d (u "whatsapp_number") with
                   | Some x => x | None => PNone end).
  destruct (truthy slug_v) eqn:Hts; [|discriminate].
  destruct (truthy number_v) eqn:Htn; [|discriminate].
  cbn [negb orb].
  destruct (first_event db slug_v) as [event|] eqn:He; [|discriminate].
  destruct (allow_cancellations event) eqn:Hallow; [|discriminate].
  cbn [negb].
  destruct (first_attendee db event number_v) as [before|] eqn:Ha;
    [|discriminate].
  intros [= <- _].
  exists slug_v, number_v, event, before. repeat split; assumption.
Qed.

Ltac refused :=
  intros [= <- <- <-]; left; split; [reflexivity|];
  split; [auto | eexists; reflexivity].

Lemma modify_rsvp_cases db data db' body code :
  modify_rsvp db data = Ret (db', (body, code)) ->
  refusal db db' body code \/ code = 200%Z.
Proof.
  unfold modify_rsvp. destruct data as [| | | | | |d]; try discriminate.
  cbn [get rbind].
  destruct (_ || _); [refused|].
  destruct (first_event db _) as [event|]; [|refused].
  destruct (negb _); [refused|].
  destruct (first_attendee db event _) as [before|]; [|refused].
  do 4 (rewrite update_field_dict; cbn [rbind]).
  intros [= _ _ <-]. right. reflexivity.
Qed.

Lemma cancel_rsvp_cases db data db' body code :
  cancel_rsvp db data = Ret (db', (body, code)) ->
  refusal db db' body code \/ code = 200%Z.
Proof.
  unfold cancel_rsvp. destruct data as [| | | | | |d]; try discriminate.
  cbn [get rbind].
  destruct (_ || _); [refused|].
  destruct (first_event db _) as [event|]; [|refused].
  destruct (negb _); [refused|].
  destruct (first_attendee db event _) as [before|]; [|refused].
  intros [= _ _ <-]. right. reflexivity.
Qed.

(** X11. Whenever [modify_rsvp] returns a response whose status is
    not 200, that status is 400, 403 or 404, the body is
    [{"error": ...}], and the database is as it was. (A request on
    which the handler raises is not answered by the handler.) *)
Theorem X11_modify_rsvp_refused_keeps_database db data db' body code :
  modify_rsvp db data = Ret (db', (body, code)) ->
  code <> 200%Z ->
  db' = db
  /\ (code = 400 \/ code = 403 \/ code = 404)%Z
  /\ exists msg, body = PDict [(u "error", PStr msg)].
Proof.
  intros H Hcode. apply modify_rsvp_cases in H as [H | H];
    [exact H | contradiction].
Qed.

Lemma X11_witness :
  modify_rsvp frozen_db modification
  = Ret (frozen_db, error "Modifications are not allowed for this event" 403)
  /\ frozen_db = frozen_db
  /\ (403 = 400 \/ 403 = 403 \/ 403 = 404)%Z
  /\ exists msg,
      fst (error "Modifications are not allowed for this event" 403)
      = PDict [(u "error", PStr msg)].
Proof.
  assert (H : modify_rsvp frozen_db modification
              = Ret (frozen_db,
                     error "Modifications are not allowed for this event" 403))
    by (vm_compute; reflexivity).
  split; [exact H|].
  apply (X11_modify_rsvp_refused_keeps_database
           frozen_db modification frozen_db _ 403%Z H).
  discriminate.
Defined.

(** X12. A successful modification rewrites one row in place: the
    events and the other rows are as before, in the same order, and
    the row keeps its id, its event and its number. *)
Theorem X12_modify_rsvp_rewrites_one_row db data db' body :
  modify_rsvp db data = Ret (db', (body, 200%Z)) ->
  events db' = events db
  /\ exists l1 before after l2,
      attendees db = l1 ++ before :: l2
      /\ attendees db' = l1 ++ after :: l2
      /\ id after = id before
      /\ same_rsvp before after.
Proof.
  intros H. apply modify_rsvp_success in H
    as (d & slug_v & number_v & event & before
        & -> & _ & _ & _ & _ & _ & _ & Ha & -> & _).
  split; [reflexivity|].
  unfold first_attendee in Ha.
  destruct (replace_first_split _ _ (modified d before) _ Ha)
    as (l1 & l2 & Hl & Hr & _).
  exists l1, before, (modified d before), l2.
  split; [exact Hl|]. split; [exact Hr|]. repeat split.
Qed.

Lemma X12_witness :
  events modified_db = events cancelled_db
  /\ exists l1 before after l2,
      attendees cancelled_db = l1 ++ before :: l2
      /\ attendees modified_db = l1 ++ after :: l2
      /\ id after = id before
      /\ same_rsvp before after.
Proof.
  eapply (X12_modify_rsvp_rewrites_one_row cancelled_db modification).
  vm_compute. reflexivity.
Defined.

(** X13. A successful modification leaves alone the fields that the
    body does not name: each of name, adults, children and comments
    whose key is absent from the body has, on the row found after the
    request, the value it had on the row found before. The event of
    the RSVP allows modifications. *)
Theorem X13_modify_rsvp_keeps_unnamed_fields db data db' body :
  modify_rsvp db data = Ret (db', (body, 200%Z)) ->
  exists d slug_v number_v event before after,
    data = PDict d
    /\ get data (u "event_slug") PNone = Ret slug_v
    /\ get data (u "whatsapp_number") PNone = Ret number_v
    /\ first_event db slug_v = Some event
    /\ allow_modifications event = true
    /\ first_attendee db event number_v = Some before
    /\ first_attendee db' event number_v = Some after
    /\ match dict_get d (u "name") with
       | None => name after = name before
       | Some _ => True
       end
    /\ match dict_get d (u "num_adults") with
       | None => num_adults after = num_adults before
       | Some _ => True
       end
    /\ match dict_get d (u "num_children") with
       | None => num_children after = num_children before
       | Some _ => True
       end
    /\ match dict_get d (u "comments") with
       | None => comments after = comments before
       | Some _ => True
       end.
Proof.
  intros H. apply modify_rsvp_success in H
    as (d & slug_v & number_v & event & before
        & -> & Hs & Hn & _ & _ & He & Hallow & Ha & -> & _).
  exists d, slug_v, number_v, event, before, (modified d before).
  split; [reflexivity|].
  repeat (split; [assumption|]).
  split; [apply (first_attendee_commit _ _ _ _ _ Ha); split; reflexivity|].
  unfold modified.
  cbn [name num_adults num_children comments].
  repeat split;
    match goal with
    | |- match ?x with _ => _ end => destruct x; [exact I | reflexivity]
    end.
Qed.

Lemma X13_witness :
  exists d slug_v number_v event before after,
    modification = PDict d
    /\ get modification (u "event_slug") PNone = Ret slug_v
    /\ get modification (u "whatsapp_number") PNone = Ret number_v
    /\ first_event cancelled_db slug_v = Some event
    /\ allow_modifications event = true
    /\ first_attendee cancelled_db event number_v = Some before
    /\ first_attendee modified_db event number_v = Some after
    /\ match dict_get d (u "name") with
       | None => name after = name before
       | Some _ => True
       end
    /\ match dict_get d (u "num_adults") with
       | None => num_adults after = num_adults before
       | Some _ => True
       end
    /\ match dict_get d (u "num_children") with
       | None => num_children after = num_children before
       | Some _ => True
       end
    /\ match dict_get d (u "comments") with
       | None => comments after = comments before
       | Some _ => True
       end.
Proof.
  eapply (X13_modify_rsvp_keeps_unnamed_fields cancelled_db modification).
  vm_compute. reflexivity.
Defined.

(** X14. Whenever [cancel_rsvp] returns a response whose status is
    not 200, that status is 400, 403 or 404, the body is
    [{"error": ...}], and the database is as it was. (A request on
    which the handler raises is not answered by the handler.) *)
Theorem X14_cancel_rsvp_refused_keeps_database db data db' body code :
  cancel_rsvp db data = Ret (db', (body, code)) ->
  code <> 200%Z ->
  db' = db
  /\ (code = 400 \/ code = 403 \/ code = 404)%Z
  /\ exists msg, body = PDict [(u "error", PStr msg)].
Proof.
  intros H Hcode. apply cancel_rsvp_cases in H as [H | H];
    [exact H | contradiction].
Qed.

Lemma X14_witness :
  cancel_rsvp frozen_db cancellation
  = Ret (frozen_db, error "Cancellations are not allowed for this event" 403)
  /\ frozen_db = frozen_db
  /\ (403 = 400 \/ 403 = 403 \/ 403 = 404)%Z
  /\ exists msg,
      fst (error "Cancellations are not allowed for this event" 403)
      = PDict [(u "error", PStr msg)].
Proof.
  assert (H : cancel_rsvp frozen_db cancellation
              = Ret (frozen_db,
                     error "Cancellations are not allowed for this event" 403))
    by (vm_compute; reflexivity).
  split; [exact H|].
  apply (X14_cancel_rsvp_refused_keeps_database
           frozen_db cancellation frozen_db _ 403%Z H).
  discriminate.
Defined.

(** X15. A successful cancellation sets the status of one row to
    "cancelled" and changes nothing else: the row stays in the table,
    with its other fields, and the events and the other rows are as
    before. The row belongs to an event of the database that allows
    cancellations. *)
Theorem X15_cancel_rsvp_cancels_one_row db data db' body :
  cancel_rsvp db data = Ret (db', (body, 200%Z)) ->
  events db' = events db
  /\ exists event l1 before l2,
      In event (events db)
      /\ allow_cancellations event = true
      /\ event_id before = Event_id event
      /\ attendees db = l1 ++ before :: l2
      /\ attendees db'
         = l1 ++ set_status before (PStr (u "cancelled")) :: l2.
Proof.
  intros H. apply cancel_rsvp_success in H
    as (slug_v & number_v & event & before
        & _ & _ & _ & _ & He & Hallow & Ha & ->).
  split; [reflexivity|].
  unfold first_attendee in Ha.
  destruct (replace_first_split _ _ (set_status before (PStr (u "cancelled")))
                                _ Ha)
    as (l1 & l2 & Hl & Hr & _).
  exists event, l1, before, l2.
  split; [unfold first_event in He; apply find_some in He; apply He|].
  split; [exact Hallow|].
  split; [|split; [exact Hl | exact Hr]].
  apply find_some in Ha as [_ Ha]. unfold is_rsvp in Ha.
  apply andb_prop in Ha as [Ha _]. apply Z.eqb_eq. exact Ha.
Qed.

Lemma X15_witness :
  events cancelled_db = events confirmed_db
  /\ exists event l1 before l2,
      In event (events confirmed_db)
      /\ allow_cancellations event = true
      /\ event_id before = Event_id event
      /\ attendees confirmed_db = l1 ++ before :: l2
      /\ attendees cancelled_db
         = l1 ++ set_status before (PStr (u "cancelled")) :: l2.
Proof.
  eapply (X15_cancel_rsvp_cancels_one_row confirmed_db cancellation).
  vm_compute. reflexivity.
Defined.

(** X16. Cancelling is idempotent: the same request on the database
    that a cancellation left is answered in the same way and leaves
    the database as it is. A cancelled RSVP can be cancelled again,
    with 200. *)
Theorem X16_cancel_rsvp_idempotent db data db' response :
  cancel_rsvp db data = Ret (db', response) ->
  cancel_rsvp db' data = Ret (db', response).
Proof.
  destruct response as [body code]. intros H.
  destruct (cancel_rsvp_cases _ _ _ _ _ H) as [(-> & _) | ->];
    [exact H|].
  pose proof H as H0.
  apply cancel_rsvp_success in H
    as (slug_v & number_v & event & before
        & Hs & Hn & Hts & Htn & He & Hallow & Ha & ->).
  assert (Hbody : body
                  = PDict [(u "message",
                            PStr (u "RSVP cancelled successfully"))]).
  { revert H0. unfold cancel_rsvp. rewrite Hs, Hn. cbn [rbind].
    rewrite Hts, Htn. cbn [negb orb]. rewrite He, Hallow. cbn [negb].
    rewrite Ha. intros [= <-]. reflexivity. }
  subst body.
  unfold cancel_rsvp. rewrite Hs, Hn. cbn [rbind].
  rewrite Hts, Htn. cbn [negb orb].
  change (first_event (commit db event number_v _) slug_v)
    with (first_event db slug_v).
  rewrite He, Hallow. cbn [negb].
  rewrite (first_attendee_commit db event number_v before
             (set_status before (PStr (u "cancelled"))) Ha)
    by (split; reflexivity).
  f_equal. f_equal. unfold commit. cbn [attendees events]. f_equal.
  apply replace_first_again.
  unfold first_attendee in Ha. apply find_some in Ha as [_ Ha]. exact Ha.
Qed.

Lemma X16_witness :
  cancel_rsvp cancelled_db cancellation
  = Ret (cancelled_db,
         (PDict [(u "message", PStr (u "RSVP cancelled successfully"))],
          200%Z)).
Proof.
  apply (X16_cancel_rsvp_idempotent confirmed_db).
  vm_compute. reflexivity.
Defined.

(** X17. A successful modification of an RSVP that was cancelled
    brings it back: after a cancellation and then a modification for
    the same event and number, the RSVP is confirmed. *)
Theorem X17_modify_after_cancel_confirms
        db data db1 body1 data' db2 body2 :
  cancel_rsvp db data = Ret (db1, (body1, 200%Z)) ->
  modify_rsvp db1 data' = Ret (db2, (body2, 200%Z)) ->
  get data' (u "event_slug") PNone = get data (u "event_slug") PNone ->
  get data' (u "whatsapp_number") PNone
  = get data (u "whatsapp_number") PNone ->
  exists event number_v before after,
    first_attendee db event number_v = Some before
    /\ first_attendee db1 event number_v
       = Some (set_status before (PStr (u "cancelled")))
    /\ first_attendee db2 event number_v = Some after
    /\ status after = PStr (u "confirmed").
Proof.
  intros Hc Hm Hslug Hnumber.
  apply cancel_rsvp_success in Hc
    as (slug_v & number_v & event & before
        & Hs & Hn & _ & _ & He & _ & Ha & ->).
  apply modify_rsvp_success in Hm
    as (d & slug_v' & number_v' & event' & before'
        & -> & Hs' & Hn' & _ & _ & He' & _ & Ha' & -> & _).
  rewrite Hslug, Hs in Hs'. injection Hs' as <-.
  rewrite Hnumber, Hn in Hn'. injection Hn' as <-.
  change (first_event (commit db event number_v _) slug_v)
    with (first_event db slug_v) in He'.
  rewrite He in He'. injection He' as <-.
  pose proof (first_attendee_commit db event number_v before
                (set_status before (PStr (u "cancelled"))) Ha
                (conj eq_refl eq_refl)) as Ha1.
  rewrite Ha1 in Ha'. injection Ha' as <-.
  exists event, number_v, before,
    (modified d (set_status before (PStr (u "cancelled")))).
  split; [exact Ha|]. split; [exact Ha1|]. split.
  - apply (first_attendee_commit _ _ _ _ _ Ha1). split; reflexivity.
  - reflexivity.
Qed.

Lemma X17_witness :
  exists event number_v before after,
    first_attendee confirmed_db event number_v = Some before
    /\ first_attendee cancelled_db event number_v
       = Some (set_status before (PStr (u "cancelled")))
    /\ first_attendee modified_db event number_v = Some after
    /\ status after = PStr (u "confirmed").
Proof.
  eapply (X17_modify_after_cancel_confirms
            confirmed_db cancellation cancelled_db _
            modification modified_db).
  - vm_compute. reflexivity.
  - vm_compute. reflexivity.
  - reflexivity.
  - reflexivity.
Defined.

Lemma all_in_sequence data fields :
  (exists l, data = PList l) \/ (exists s, data = PStr s) ->
  exists b, all_in data fields = Ret b.
Proof.
  intros Hd. induction fields as [|field fields IH]; cbn [all_in];
    [eexists; reflexivity|].
  destruct Hd as [[l ->] | [s ->]]; cbn [contains rbind];
    match goal with
    | |- exists b, (if ?c then _ else _) = _ => destruct c
    end;
    first [exact IH | eexists; reflexivity].
Qed.

(** X18. A body that is not a JSON object (null, a list, a string, a
    number, a boolean) makes [modify_rsvp], [cancel_rsvp] and
    [find_attendee] raise [AttributeError] at the first [data.get],
    before any query. On such a body [create_rsvp] either raises
    [TypeError] (at [field in data] for null, a number or a boolean;
    at [data["event_slug"]] for a list or a string that holds the four
    names) or answers 400 "Missing required fields"; either way it
    stores nothing and sends nothing. *)
Theorem X18_non_object_body w p dates db data :
  (forall d, data <> PDict d) ->
  modify_rsvp db data = Raise AttributeError
  /\ cancel_rsvp db data = Raise AttributeError
  /\ find_attendee dates db data = Raise AttributeError
  /\ (create_rsvp w p db data = (Raise TypeError, [])
      \/ create_rsvp w p db data
         = (Ret (db, error "Missing required fields" 400), [])).
Proof.
  intros Hd.
  assert (Hget : forall k, get data k PNone = Raise AttributeError)
    by (intros k; destruct data; try reflexivity; exfalso; eapply Hd;
        reflexivity).
  split; [unfold modify_rsvp; rewrite Hget; reflexivity|].
  split; [unfold cancel_rsvp; rewrite Hget; reflexivity|].
  split; [unfold find_attendee; rewrite Hget; reflexivity|].
  unfold create_rsvp.
  destruct data as [| | | |s|l|d];
    try (left; reflexivity);
    [ destruct (all_in_sequence (PStr s) required) as [[|] ->];
        [right; eexists; reflexivity | | ]
    | destruct (all_in_sequence (PList l) required) as [[|] ->];
        [left; eexists; reflexivity | | ]
    | exfalso; eapply Hd; reflexivity ].
  - left. reflexivity.
  - right. reflexivity.
  - left. reflexivity.
  - right. reflexivity.
Qed.

Lemma X18_witness :
  modify_rsvp confirmed_db names_only = Raise AttributeError
  /\ cancel_rsvp confirmed_db names_only = Raise AttributeError
  /\ find_attendee dated confirmed_db names_only = Raise AttributeError
  /\ (create_rsvp mail_world strict_columns confirmed_db names_only
      = (Raise TypeError, [])
      \/ create_rsvp mail_world strict_columns confirmed_db names_only
         = (Ret (confirmed_db, error "Missing required fields" 400), [])).
Proof.
  apply X18_non_object_body. intros d. discriminate.
Defined.

(* ================================================================== *)
(** * The routes: creating *)
(* ================================================================== *)

Import EmailService EmailSpec App.

Lemma send_rsvp_notification_run w event attendee :
  send_rsvp_notification w event attendee
  = (Ret (delivered w (rsvp_message w event attendee)),
     [rsvp_message w event attendee]).
Proof.
  unfold send_rsvp_notification, delivered, sg_send.
  destruct (sendgrid w _ _); reflexivity.
Qed.

(** What [create_rsvp] does, by cases. *)
Lemma create_rsvp_cases w p db data db' response :
  result (create_rsvp w p db data) = Ret (db', response) ->
  (db' = db /\ snd response <> 201%Z /\ calls (create_rsvp w p db data) = [])
  \/ exists slug_v number_v event attendee,
      getitem data (u "event_slug") = Ret slug_v
      /\ first_event db slug_v = Some event
      /\ getitem data (u "whatsapp_number") = Ret number_v
      /\ first_attendee db event number_v = None
      /\ new_attendee p db event data = Ret attendee
      /\ db' = add db attendee
      /\ response
         = (PDict [(u "message", PStr (u "RSVP successful"));
                   (u "attendee_id", PInt (id attendee))], 201%Z)
      /\ calls (create_rsvp w p db data) = [rsvp_message w event attendee].
Proof.
  unfold create_rsvp.
  destruct (all_in data required) as [[|]|e]; cbn [bind lift negb];
    [| intros [= <- <-]; left; repeat split; discriminate | discriminate].
  destruct (getitem data (u "event_slug")) as [slug_v|e] eqn:Hs;
    cbn [bind lift]; [|discriminate].
  destruct (first_event db slug_v) as [event|] eqn:He;
    [| intros [= <- <-]; left; repeat split; discriminate].
  destruct (getitem data (u "whatsapp_number")) as [number_v|e] eqn:Hn;
    cbn [bind lift]; [|discriminate].
  destruct (first_attendee db event number_v) as [existing|] eqn:Ha;
    [intros [= <- <-]; left; repeat split; discriminate|].
  destruct (new_attendee p db event data) as [attendee|e] eqn:Hnew;
    cbn [bind lift]; [|discriminate].
  rewrite send_rsvp_notification_run. cbn.
  intros [= <- <-]. right.
  exists slug_v, number_v, event, attendee. repeat split; assumption.
Qed.

Lemma new_attendee_number p db event data attendee s :
  new_attendee p db event data = Ret attendee ->
  getitem data (u "whatsapp_number") = Ret (PStr s) ->
  text_column p (PStr s) = Ret s ->
  event_id attendee = Event_id event /\ whatsapp_number attendee = s.
Proof.
  unfold new_attendee. intros H Hn Ht. rewrite Hn in H. cbn [rbind] in H.
  destruct (getitem data (u "name")); [|discriminate].
  destruct (getitem data (u "num_adults")); [|discriminate].
  destruct (get data (u "num_children") (PInt 0)); [|discriminate].
  destruct (get data (u "comments") (PStr [])); [|discriminate].
  cbn [rbind] in H. rewrite Ht in H. cbn [rbind] in H.
  injection H as <-. split; reflexivity.
Qed.

Lemma find_app_none {A} (f : A -> bool) l x :
  find f l = None -> f x = true -> find f (l ++ [x]) = Some x.
Proof.
  induction l as [|y l IH]; cbn [app find]; intros H Hx.
  - rewrite Hx. reflexivity.
  - destruct (f y); [discriminate | apply IH; assumption].
Qed.

(** X19. A creation that is not answered with 201 sends nothing to
    the host, and stores nothing: when [create_rsvp] returns a
    response with another status, the database is as it was and no
    send call was made; when it raises, no send call was made (an
    exception leaves the handler before the row is stored). *)
Theorem X19_create_rsvp_refused_is_silent w p db data :
  match result (create_rsvp w p db data) with
  | Ret (db', (body, code)) =>
    code = 201%Z \/ (db' = db /\ calls (create_rsvp w p db data) = [])
  | Raise e => calls (create_rsvp w p db data) = []
  end.
Proof.
  destruct (result (create_rsvp w p db data)) as [[db' [body code]]|e] eqn:H.
  - apply create_rsvp_cases in H as [(-> & _ & Hc) | H].
    + right. split; [reflexivity | exact Hc].
    + destruct H as (? & ? & ? & ? & _ & _ & _ & _ & _ & _ & H & _).
      injection H as _ ->. left. reflexivity.
  - revert H. unfold create_rsvp.
    destruct (all_in data required) as [[|]|e0]; cbn [bind lift negb];
      try (intros _; reflexivity); try discriminate.
    destruct (getitem data (u "event_slug")) as [slug_v|e0];
      cbn [bind lift]; [|intros _; reflexivity].
    destruct (first_event db slug_v) as [event|]; [|discriminate].
    destruct (getitem data (u "whatsapp_number")) as [number_v|e0];
      cbn [bind lift]; [|intros _; reflexivity].
    destruct (first_attendee db event number_v); [discriminate|].
    destruct (new_attendee p db event data) as [attendee|e0];
      cbn [bind lift]; [|intros _; reflexivity].
    rewrite send_rsvp_notification_run. discriminate.
Qed.

(** X20. A creation answered with 201 appends one row to the
    attendees, for an event of the database and with the status the
    model gives a new attendee, answers with the id of that row, and
    sends one message, the creation notification for that event and
    row, to the e-mail address of the event's host. Nothing else
    changes. *)
Theorem X20_create_rsvp_appends_and_notifies w p db data db' body :
  result (create_rsvp w p db data) = Ret (db', (body, 201%Z)) ->
  exists event attendee,
    In event (events db)
    /\ events db' = events db
    /\ attendees db' = attendees db ++ [attendee]
    /\ event_id attendee = Event_id event
    /\ status attendee = default_status p
    /\ body = PDict [(u "message", PStr (u "RSVP successful"));
                     (u "attendee_id", PInt (id attendee))]
    /\ calls (create_rsvp w p db data) = [rsvp_message w event attendee]
    /\ to_emails (rsvp_message w event attendee) = email (host event).
Proof.
  intros H. apply create_rsvp_cases in H as [(_ & Hcode & _) | H].
  - contradiction Hcode. reflexivity.
  - destruct H as (slug_v & number_v & event & attendee
                   & _ & He & _ & _ & Hnew & -> & Hr & Hc).
    exists event, attendee.
    split; [unfold first_event in He; apply find_some in He; apply He|].
    split; [reflexivity|]. split; [reflexivity|].
    assert (Hrow : event_id attendee = Event_id event
                   /\ status attendee = default_status p).
    { revert Hnew. unfold new_attendee.
      destruct (getitem data (u "whatsapp_number")); [|discriminate].
      destruct (getitem data (u "name")); [|discriminate].
      destruct (getitem data (u "num_adults")); [|discriminate].
      destruct (get data (u "num_children") (PInt 0)); [|discriminate].
      destruct (get data (u "comments") (PStr [])); [|discriminate].
      cbn [rbind].
      destruct (text_column p _); [|discriminate].
      intros [= <-]. split; reflexivity. }
    destruct Hrow as [Hid Hst].
    split; [exact Hid|]. split; [exact Hst|].
    injection Hr as ->. split; [reflexivity|]. split; [exact Hc | reflexivity].
Qed.

Lemma X20_witness :
  exists event attendee,
    In event (events confirmed_db)
    /\ events with_joao_db = events confirmed_db
    /\ attendees with_joao_db = attendees confirmed_db ++ [attendee]
    /\ event_id attendee = Event_id event
    /\ status attendee = default_status strict_columns
    /\ PDict [(u "message", PStr (u "RSVP successful"));
              (u "attendee_id", PInt 32)]
       = PDict [(u "message", PStr (u "RSVP successful"));
                (u "attendee_id", PInt (id attendee))]
    /\ calls (create_rsvp mail_world strict_columns confirmed_db rsvp_of_joao)
       = [rsvp_message mail_world event attendee]
    /\ to_emails (rsvp_message mail_world event attendee)
       = email (host event).
Proof.
  apply (X20_create_rsvp_appends_and_notifies
           mail_world strict_columns confirmed_db rsvp_of_joao with_joao_db).
  vm_compute. reflexivity.
Defined.

(** X21. What the mail provider does with the notification has no
    bearing on the creation: the row is stored before the message is
    sent, and the response and the database are the same whether the
    provider accepts the message or raises. *)
Theorem X21_create_rsvp_ignores_mail_outcome w1 w2 p db data :
  result (create_rsvp w1 p db data) = result (create_rsvp w2 p db data).
Proof.
  unfold create_rsvp.
  destruct (all_in data required) as [[|]|e]; cbn [bind lift negb];
    try reflexivity.
  destruct (getitem data (u "event_slug")) as [slug_v|e];
    cbn [bind lift]; [|reflexivity].
  destruct (first_event db slug_v) as [event|]; [|reflexivity].
  destruct (getitem data (u "whatsapp_number")) as [number_v|e];
    cbn [bind lift]; [|reflexivity].
  destruct (first_attendee db event number_v); [reflexivity|].
  destruct (new_attendee p db event data) as [attendee|e];
    cbn [bind lift]; [|reflexivity].
  rewrite !send_rsvp_notification_run. reflexivity.
Qed.

(** X22. When the number is a string that the column stores as given,
    the same creation request a second time, on the database the
    first one left, is refused with 400 "You have already RSVP'd to
    this event": it adds no row and sends no message. *)
Theorem X22_create_rsvp_twice_is_refused w p db data db' body s :
  result (create_rsvp w p db data) = Ret (db', (body, 201%Z)) ->
  getitem data (u "whatsapp_number") = Ret (PStr s) ->
  text_column p (PStr s) = Ret s ->
  create_rsvp w p db' data
  = (Ret (db', error "You have already RSVP'd to this event" 400), []).
Proof.
  intros H Hn Ht. pose proof H as H0.
  apply create_rsvp_cases in H as [(_ & Hcode & _) | H];
    [contradiction Hcode; reflexivity|].
  destruct H as (slug_v & number_v & event & attendee
                 & Hs & He & Hn' & Ha & Hnew & -> & _ & _).
  rewrite Hn in Hn'. injection Hn' as <-.
  destruct (new_attendee_number p db event data attendee s Hnew Hn Ht)
    as [Hid Hw].
  revert H0. unfold create_rsvp.
  destruct (all_in data required) as [[|]|e]; cbn [bind lift negb];
    [| discriminate | discriminate].
  intros _. rewrite Hs. cbn [bind lift].
  change (first_event (add db attendee) slug_v) with (first_event db slug_v).
  rewrite He, Hn. cbn [bind lift].
  unfold first_attendee, add. cbn [attendees].
  rewrite (find_app_none _ _ attendee Ha); [reflexivity|].
  unfold is_rsvp. rewrite Hid, Hw, Z.eqb_refl. cbn.
  apply pystr_eqb_refl.
Qed.

Lemma X22_witness :
  create_rsvp mail_world strict_columns with_joao_db rsvp_of_joao
  = (Ret (with_joao_db, error "You have already RSVP'd to this event" 400),
     []).
Proof.
  eapply (X22_create_rsvp_twice_is_refused
            mail_world strict_columns confirmed_db rsvp_of_joao).
  - vm_compute. reflexivity.
  - reflexivity.
  - reflexivity.
Defined.



(* ================================================================== *)
(** * The routes: looking an RSVP up *)
(* ================================================================== *)

Lemma find_attendee_row dates db data slug_v number_v event a :
  get data (u "event_slug") PNone = Ret slug_v ->
  get data (u "whatsapp_number") PNone = Ret number_v ->
  truthy slug_v = true -> truthy number_v = true ->
  first_event db slug_v = Some event ->
  first_attendee db event number_v = Some a ->
  finds dates (find_attendee dates db data) a.
Proof.
  intros Hs Hn Hts Htn He Ha. unfold find_attendee.
  rewrite Hs, Hn. cbn [rbind]. rewrite Hts, Htn. cbn [negb orb].
  rewrite He, Ha.
  destruct (created_at_isoformat dates a) as [c|e] eqn:Hc; cbn [rbind finds].
  - destruct (event_date_isoformat dates event) as [t|e] eqn:Ht;
      cbn [rbind finds].
    + split; [reflexivity|]. repeat split.
    + right. exists event. exact Ht.
  - left. exists a. exact Hc.
Qed.

Lemma getitem_get v k x default :
  getitem v k = Ret x -> get v k default = Ret x.
Proof.
  destruct v; cbn; try discriminate.
  destruct (dict_get d k); [exact (fun H => H) | discriminate].
Qed.

(** X26. After a successful modification, looking the RSVP up with
    the same body finds it: [find_attendee] answers 200, and the id,
    the name, the counts, the comments and the status it reports are
    those of the response to the modification. It fails only if a
    date column of the row or the event makes [isoformat] raise. *)
Theorem X26_find_attendee_after_modify dates db data db' body :
  modify_rsvp db data = Ret (db', (body, 200%Z)) ->
  match find_attendee dates db' data with
  | Ret (found, code) =>
    code = 200%Z
    /\ forall key,
        In key ["id"; "name"; "num_adults"; "num_children"; "comments";
                "status"]%string ->
        field found "attendee" key = field body "attendee" key
  | Raise e => from_dates dates e
  end.
Proof.
  intros H. apply modify_rsvp_success in H
    as (d & slug_v & number_v & event & before
        & -> & Hs & Hn & Hts & Htn & He & _ & Ha & -> & ->).
  assert (Ha' : first_attendee (commit db event number_v (modified d before))
                               event number_v
                = Some (modified d before))
    by (apply (first_attendee_commit _ _ _ _ _ Ha); split; reflexivity).
  pose proof (find_attendee_row
                dates (commit db event number_v (modified d before)) _ _ _ _ _
                Hs Hn Hts Htn He Ha') as Hf.
  destruct (find_attendee dates _ _) as [[found code]|e]; [|exact Hf].
  destruct Hf as (Hcode & Hid & Hname & _ & Hadults & Hchildren & Hcomments
                  & Hstatus).
  split; [exact Hcode|].
  intros key Hkey.
  repeat (destruct Hkey as [<- | Hkey]; [assumption|]).
  contradiction.
Qed.

Lemma X26_witness :
  match find_attendee dated modified_db modification with
  | Ret (found, code) =>
    code = 200%Z
    /\ forall key,
        In key ["id"; "name"; "num_adults"; "num_children"; "comments";
                "status"]%string ->
        field found "attendee" key
        = field (modify_response (set_num_adults maria (PInt 3)))
                "attendee" key
  | Raise e => from_dates dated e
  end.
Proof.
  apply (X26_find_attendee_after_modify dated cancelled_db modification).
  vm_compute. reflexivity.
Defined.

(** X27. A cancelled RSVP is still there: after a successful
    cancellation, [find_attendee] with the same body answers 200 and
    reports the status "cancelled" (or a date column makes [isoformat]
    raise). *)
Theorem X27_find_attendee_after_cancel dates db data db' body :
  cancel_rsvp db data = Ret (db', (body, 200%Z)) ->
  match find_attendee dates db' data with
  | Ret (found, code) =>
    code = 200%Z
    /\ field found "attendee" "status" = Some (PStr (u "cancelled"))
  | Raise e => from_dates dates e
  end.
Proof.
  intros H. apply cancel_rsvp_success in H
    as (slug_v & number_v & event & before
        & Hs & Hn & Hts & Htn & He & _ & Ha & ->).
  assert (Ha' : first_attendee
                  (commit db event number_v
                          (set_status before (PStr (u "cancelled"))))
                  event number_v
                = Some (set_status before (PStr (u "cancelled"))))
    by (apply (first_attendee_commit _ _ _ _ _ Ha); split; reflexivity).
  pose proof (find_attendee_row
                dates
                (commit db event number_v
                        (set_status before (PStr (u "cancelled"))))
                _ _ _ _ _ Hs Hn Hts Htn He Ha') as Hf.
  destruct (find_attendee dates _ _) as [[found code]|e]; [|exact Hf].
  destruct Hf as (Hcode & _ & _ & _ & _ & _ & _ & Hstatus).
  split; [exact Hcode | exact Hstatus].
Qed.

Lemma X27_witness :
  match find_attendee dated cancelled_db cancellation with
  | Ret (found, code) =>
    code = 200%Z
    /\ field found "attendee" "status" = Some (PStr (u "cancelled"))
  | Raise e => from_dates dated e
  end.
Proof.
  eapply (X27_find_attendee_after_cancel dated confirmed_db cancellation).
  vm_compute. reflexivity.
Defined.

(** X28. An RSVP that was created can be looked up: when the slug of
    the creation request is not empty and its number is a non-empty
    string that the column stores as given, [find_attendee] with the
    same body, on the database the creation left, answers 200 and
    reports the fields of the new row, whose id is the [attendee_id]
    of the creation response (or a date column makes [isoformat]
    raise). *)
Theorem X28_find_attendee_after_create
        w p dates db data db' body slug_v s :
  result (create_rsvp w p db data) = Ret (db', (body, 201%Z)) ->
  getitem data (u "event_slug") = Ret slug_v ->
  truthy slug_v = true ->
  getitem data (u "whatsapp_number") = Ret (PStr s) ->
  s <> [] ->
  text_column p (PStr s) = Ret s ->
  match find_attendee dates db' data with
  | Ret (found, code) =>
    code = 200%Z
    /\ exists a,
        attendees db' = attendees db ++ [a]
        /\ reports found a
        /\ body = PDict [(u "message", PStr (u "RSVP successful"));
                         (u "attendee_id", PInt (id a))]
  | Raise e => from_dates dates e
  end.
Proof.
  intros H Hs Hts Hn Hs0 Ht.
  apply create_rsvp_cases in H as [(_ & Hcode & _) | H];
    [contradiction Hcode; reflexivity|].
  destruct H as (slug_v' & number_v & event & a
                 & Hs' & He & Hn' & Ha & Hnew & -> & Hr & _).
  rewrite Hs in Hs'. injection Hs' as <-.
  rewrite Hn in Hn'. injection Hn' as <-.
  destruct (new_attendee_number p db event data a s Hnew Hn Ht) as [Hid Hw].
  assert (Ha' : first_attendee (add db a) event (PStr s) = Some a).
  { unfold first_attendee, add. cbn [attendees].
    apply find_app_none; [exact Ha|].
    unfold is_rsvp. rewrite Hid, Hw, Z.eqb_refl. cbn.
    apply pystr_eqb_refl. }
  assert (Htn : truthy (PStr s) = true) by (destruct s; [contradiction | reflexivity]).
  pose proof (find_attendee_row dates (add db a) data slug_v (PStr s) event a
                (getitem_get _ _ _ _ Hs) (getitem_get _ _ _ _ Hn)
                Hts Htn He Ha') as Hf.
  destruct (find_attendee dates _ _) as [[found code]|e]; [|exact Hf].
  destruct Hf as [Hcode Hrep].
  split; [exact Hcode|]. exists a.
  split; [reflexivity|]. split; [exact Hrep|].
  injection Hr as ->. reflexivity.
Qed.

Lemma X28_witness :
  match find_attendee dated with_joao_db rsvp_of_joao with
  | Ret (found, code) =>
    code = 200%Z
    /\ exists a,
        attendees with_joao_db = attendees confirmed_db ++ [a]
        /\ reports found a
        /\ PDict [(u "message", PStr (u "RSVP successful"));
                  (u "attendee_id", PInt 32)]
           = PDict [(u "message", PStr (u "RSVP successful"));
                    (u "attendee_id", PInt (id a))]
  | Raise e => from_dates dated e
  end.
Proof.
  apply (X28_find_attendee_after_create
           mail_world strict_columns dated confirmed_db rsvp_of_joao
           with_joao_db _ (PStr (u "festa-da-ana")) (u "+5521988880000")).
  - vm_compute. reflexivity.
  - reflexivity.
  - reflexivity.
  - reflexivity.
  - discriminate.
  - reflexivity.
Defined.

(* ================================================================== *)
(** * One RSVP for an event and a number *)
(* ================================================================== *)

Lemma commit_keys db event v before after :
  first_attendee db event v = Some before ->
  same_rsvp before after ->
  map rsvp_key (attendees (commit db event v after))
  = map rsvp_key (attendees db).
Proof.
  intros Ha [He Hw]. unfold first_attendee in Ha.
  destruct (replace_first_split _ _ after _ Ha) as (l1 & l2 & Hl & Hr & _).
  unfold commit. cbn [attendees]. rewrite Hr, Hl, !map_app. cbn [map].
  unfold rsvp_key at 2 4. rewrite He, Hw. reflexivity.
Qed.

Lemma find_none_key event s l :
  find (is_rsvp event (PStr s)) l = None ->
  ~ In (Event_id event, s) (map rsvp_key l).
Proof.
  induction l as [|a l IH]; cbn [find map]; [intros _ []|].
  destruct (is_rsvp event (PStr s) a) eqn:Hp; [discriminate|].
  intros H [Hk | Hin]; [|exact (IH H Hin)].
  unfold rsvp_key in Hk. injection Hk as He Hw.
  unfold is_rsvp in Hp. rewrite He, Hw, Z.eqb_refl in Hp. cbn in Hp.
  rewrite pystr_eqb_refl in Hp. discriminate.
Qed.

(** X24. The three handlers that write keep the RSVPs unique: when
    no two rows have the same event and number, neither have two rows
    after a modification, a cancellation, or a creation whose number
    is a string that the column stores as given. *)
Theorem X24_unique_rsvps_preserved w p db data db' response :
  unique_rsvps db ->
  modify_rsvp db data = Ret (db', response)
  \/ cancel_rsvp db data = Ret (db', response)
  \/ (result (create_rsvp w p db data) = Ret (db', response)
      /\ exists s,
          getitem data (u "whatsapp_number") = Ret (PStr s)
          /\ text_column p (PStr s) = Ret s) ->
  unique_rsvps db'.
Proof.
  unfold unique_rsvps. intros Hu [H | [H | [H (s & Hn & Ht)]]];
    destruct response as [body code].
  - destruct (modify_rsvp_cases _ _ _ _ _ H) as [(-> & _) | ->];
      [exact Hu|].
    apply modify_rsvp_success in H
      as (d & ? & number_v & event & before
          & _ & _ & _ & _ & _ & _ & _ & Ha & -> & _).
    rewrite (commit_keys db event number_v before (modified d before) Ha);
      [exact Hu | split; reflexivity].
  - destruct (cancel_rsvp_cases _ _ _ _ _ H) as [(-> & _) | ->];
      [exact Hu|].
    apply cancel_rsvp_success in H
      as (? & number_v & event & before & _ & _ & _ & _ & _ & _ & Ha & ->).
    rewrite (commit_keys db event number_v before _ Ha);
      [exact Hu | split; reflexivity].
  - apply create_rsvp_cases in H as [(-> & _ & _) | H]; [exact Hu|].
    destruct H as (slug_v & number_v & event & attendee
                   & _ & _ & Hn' & Ha & Hnew & -> & _ & _).
    rewrite Hn in Hn'. injection Hn' as <-.
    destruct (new_attendee_number p db event data attendee s Hnew Hn Ht)
      as [Hid Hw].
    unfold add. cbn [attendees]. rewrite map_app. cbn [map].
    apply NoDup_app; [exact Hu | repeat constructor; intros [] |].
    intros k Hin [<- | []]. unfold rsvp_key in Hin. rewrite Hid, Hw in Hin.
    exact (find_none_key event s _ Ha Hin).
Qed.

Lemma X24_witness : unique_rsvps with_joao_db.
Proof.
  apply (X24_unique_rsvps_preserved
           mail_world strict_columns confirmed_db rsvp_of_joao with_joao_db
           (PDict [(u "message", PStr (u "RSVP successful"));
                   (u "attendee_id", PInt 32)], 201%Z)).
  - unfold unique_rsvps. cbn. constructor; [intros [] | constructor].
  - right. right. split; [vm_compute; reflexivity|].
    exists (u "+5521988880000"). split; reflexivity.
Defined.

(* ================================================================== *)
(** * The two creation endpoints *)
(* ================================================================== *)

